(** * wood-opcut: the cutting-plan orchestrator of [app/main.py]

    A shallow embedding of [CuttingOptimizer] and of the [/calculate]
    entry point, followed by the properties of the orchestrator layer:
    quantity expansion, the grain transform and its use on the way back,
    result assembly and the retry loop.

    Conventions of the embedding.
    - Python [int] is [Z]; [float] is [Q] (the code only moves widths,
      heights and coordinates around, it never computes with them; the
      single subtraction is the elapsed time).
    - [str] is [string]; an f-string is a concatenation with [+:+].
    - A [dict] used as a map is a [gmap]; a pydantic model is a record,
      declared in a module that carries the model's name.
    - An exception is a value [Raise category message] of [fallible].
    - The packing capability [opcut.calculate.calculate] and the clock
      [time.time] are not part of the repository: they are variables of
      the section that holds [calculate]. *)

From Stdlib Require Import ZArith QArith String Ascii List.
From Stdlib Require Import DecimalString DecimalPos DecimalZ.
From stdpp Require Import base gmap list strings list_numbers sorting.

Open Scope Z_scope.

Definition float := Q.
Bind Scope Q_scope with float.

(** ** Python values used by the code *)

(** [str(n)] for an [int], also what [f"{n}"] prints. *)
Definition str (n : Z) : string := NilZero.string_of_int (Z.to_int n).

(** [repr(s)] for a [str], which is also [str(KeyError(s))]. The text
    is put between single quotes, or between double quotes when it
    holds a single quote and no double quote; the chosen quote and the
    backslash are escaped with a backslash, tab, newline and carriage
    return are written with their letter, the other control characters
    (below 32, and 127) as a backslash, an x and two hexadecimal
    digits. This is exactly Python's [repr] on text of ASCII
    characters. The bytes of a character outside ASCII are copied,
    which is what Python does for the printable ones. *)
Definition single_quote : ascii := "'"%char.
Definition double_quote : ascii :=
  Ascii false true false false false true false false.
Definition backslash : ascii := "\"%char.

Fixpoint has_char (c : ascii) (s : string) : bool :=
  match s with
  | EmptyString => false
  | String a rest => if decide (a = c) then true else has_char c rest
  end.

Definition hex_digit (n : N) : ascii :=
  match n with
  | 0 => "0" | 1 => "1" | 2 => "2" | 3 => "3" | 4 => "4" | 5 => "5"
  | 6 => "6" | 7 => "7" | 8 => "8" | 9 => "9" | 10 => "a" | 11 => "b"
  | 12 => "c" | 13 => "d" | 14 => "e" | _ => "f"
  end%N%char.

Definition repr_char (quote c : ascii) : string :=
  let code := N_of_ascii c in
  if decide (c = quote) then String backslash (String c "")
  else if decide (c = backslash) then String backslash (String backslash "")
  else if decide (code = 9%N) then String backslash "t"
  else if decide (code = 10%N) then String backslash "n"
  else if decide (code = 13%N) then String backslash "r"
  else if decide (code < 32 ∨ code = 127)%N then
    String backslash
      (String "x"
         (String (hex_digit (code / 16)) (String (hex_digit (code mod 16)) "")))
  else String c "".

Fixpoint repr_chars (quote : ascii) (s : string) : string :=
  match s with
  | EmptyString => ""
  | String c rest => repr_char quote c +:+ repr_chars quote rest
  end.

Definition repr (s : string) : string :=
  let quote :=
    if has_char single_quote s && negb (has_char double_quote s)
    then double_quote else single_quote in
  String quote (repr_chars quote s +:+ String quote "").

(** Text of ASCII characters only. *)
Fixpoint ascii_only (s : string) : bool :=
  match s with
  | EmptyString => true
  | String c rest => (N_of_ascii c <? 128)%N && ascii_only rest
  end.

(** [range(n)]: the integers [0 .. n-1], empty when [n <= 0]. *)
Definition range (n : Z) : list Z := seqZ 0 n.

(** Exceptions as values. [category] is [type(e).__name__] and
    [message] is [str(e)]. *)
Inductive fallible (A : Type) : Type :=
| Ok (a : A)
| Raise (category message : string).
Arguments Ok {A} a.
Arguments Raise {A} category message.

Global Instance fallible_ret : MRet fallible := fun A a => Ok a.
Global Instance fallible_bind : MBind fallible := fun A B k r =>
  match r with
  | Ok a => k a
  | Raise c m => Raise c m
  end.

Global Instance fallible_fmap : FMap fallible := fun A B f r =>
  match r with
  | Ok a => Ok (f a)
  | Raise c m => Raise c m
  end.

(** ** The pydantic models *)

Inductive Grain := Ghorizontal | Gvertical.
Inductive EngravedLine := Ehorizontal | Evertical | Enone.

Global Instance Grain_eq_dec : EqDecision Grain.
Proof. solve_decision. Defined.
Global Instance EngravedLine_eq_dec : EqDecision EngravedLine.
Proof. solve_decision. Defined.

(** The default of the [borders] field and of the [.get("borders", ...)]
    fallback. *)
Definition no_borders : gmap string bool :=
  <["left" := false]> (<["bottom" := false]> (<["right" := false]>
    (<["top" := false]> ∅))).

Module PanelInput.
Record t := mk {
  name : string;
  width : float;
  height : float;
  quantity : Z;
  grain : Grain
}.
End PanelInput.

Module ItemInput.
Record t := mk {
  name : string;
  width : float;
  height : float;
  isRotate : bool;
  quantity : Z;
  grain : Grain;
  engraved_line : EngravedLine;
  borders : gmap string bool
}.
End ItemInput.

Module UserParams.
Record t := mk {
  cut_width : float;
  min_initial_usage : bool;
  panels : list PanelInput.t;
  items : list ItemInput.t
}.
End UserParams.

Module UsedItem.
Record t := mk {
  item_id : string;
  name : string;
  width : float;
  height : float;
  x : float;
  y : float;
  rotate : bool;
  grain : Grain;
  engraved_line : EngravedLine;
  borders : gmap string bool
}.
End UsedItem.

Module UnusedArea.
Record t := mk {
  width : float;
  height : float;
  x : float;
  y : float
}.
End UnusedArea.

Module PanelOutput.
Record t := mk {
  panel_id : string;
  panel_name : string;
  width : float;
  height : float;
  used_items : list UsedItem.t;
  unused_areas : list UnusedArea.t
}.
End PanelOutput.

Module CalculationResponse.
Record t := mk {
  success : bool;
  panels : list PanelOutput.t;
  cuts : list string;
  summary : gmap string Z;
  error : option string;
  calculation_time : option float
}.
End CalculationResponse.

(** ** The interface of the packing library [opcut.common] *)

Module common.
Inductive Method :=
| GREEDY | FORWARD_GREEDY | GREEDY_NATIVE | FORWARD_GREEDY_NATIVE.

Record Panel := mkPanel {
  panel_id : string;
  panel_width : float;
  panel_height : float
}.

Record Item := mkItem {
  item_id : string;
  item_width : float;
  item_height : float;
  can_rotate : bool
}.

Record Params := mkParams {
  cut_width : float;
  min_initial_usage : bool;
  panels : list Panel;
  items : list Item
}.

(** One entry of ["used"] in the JSON form of a result. The library
    writes [panel], [item], [x], [y] and [rotate]; the assembler also
    looks for [width] and [height], which may be absent. *)
Record Used := mkUsed {
  used_panel : string;
  used_item : string;
  used_x : float;
  used_y : float;
  used_rotate : bool;
  used_width : option float;
  used_height : option float
}.

(** One entry of ["unused"]. *)
Record Unused := mkUnused {
  unused_panel : string;
  unused_width : float;
  unused_height : float;
  unused_x : float;
  unused_y : float
}.

(** [result_to_json(result)]: each key may be missing. An empty or
    [None] result behaves in [transform_result] as the record with
    the three keys missing. *)
Record ResultJson := mkResultJson {
  used : option (list Used);
  unused : option (list Unused);
  cuts : option (list string)
}.

(** What one call of the packing capability does. *)
Inductive Outcome :=
| Solved (result_json : ResultJson)
| UnresolvableError (message : string)
| OtherError (category message : string).
End common.

(** ** CuttingOptimizer *)

Definition method_map (method : string) : option common.Method :=
  if decide (method = "greedy") then Some common.GREEDY
  else if decide (method = "forward_greedy") then Some common.FORWARD_GREEDY
  else if decide (method = "greedy_native") then Some common.GREEDY_NATIVE
  else if decide (method = "forward_greedy_native")
       then Some common.FORWARD_GREEDY_NATIVE
  else None.

(** The dict returned by [_transform_item_for_calculation]. *)
Module TransformedItem.
Record t := mk {
  name : string;
  width : float;
  height : float;
  isRotate : bool;
  quantity : Z;
  grain : Grain;
  engraved_line : EngravedLine;
  borders : gmap string bool;
  original_width : float;
  original_height : float
}.
End TransformedItem.

Definition _transform_item_for_calculation
    (item : ItemInput.t) (panel : PanelInput.t) : TransformedItem.t :=
  let '(cutting_width, cutting_height) :=
    if decide (ItemInput.grain item ≠ PanelInput.grain panel)
    then (ItemInput.height item, ItemInput.width item)
    else (ItemInput.width item, ItemInput.height item) in
  {| TransformedItem.name := ItemInput.name item;
     TransformedItem.width := cutting_width;
     TransformedItem.height := cutting_height;
     TransformedItem.isRotate := ItemInput.isRotate item;
     TransformedItem.quantity := ItemInput.quantity item;
     TransformedItem.grain := ItemInput.grain item;
     TransformedItem.engraved_line := ItemInput.engraved_line item;
     TransformedItem.borders := ItemInput.borders item;
     TransformedItem.original_width := ItemInput.width item;
     TransformedItem.original_height := ItemInput.height item |}.

(** [f"{name}_{i+1}"] *)
Definition unit_id (name : string) (i : Z) : string :=
  name +:+ "_" +:+ str (i + 1).

Definition _expand_panels (panels : list PanelInput.t) : list common.Panel :=
  foldl (fun expanded_panels panel =>
    foldl (fun expanded_panels i =>
      let panel_id := unit_id (PanelInput.name panel) i in
      expanded_panels ++
        [common.mkPanel panel_id (PanelInput.width panel)
                        (PanelInput.height panel)])
      expanded_panels (range (PanelInput.quantity panel)))
    [] panels.

Definition _expand_items (items : list ItemInput.t) (panel : PanelInput.t)
    : list common.Item :=
  foldl (fun expanded_items item =>
    let transformed_item := _transform_item_for_calculation item panel in
    foldl (fun expanded_items i =>
      let item_id := unit_id (ItemInput.name item) i in
      expanded_items ++
        [common.mkItem item_id
           (TransformedItem.width transformed_item)
           (TransformedItem.height transformed_item)
           (ItemInput.isRotate item)])
      expanded_items (range (ItemInput.quantity item)))
    [] items.

(** A value of the dict built by [_create_item_mapping]. *)
Module ItemDetails.
Record t := mk {
  name : string;
  width : float;
  height : float;
  original_width : float;
  original_height : float;
  can_rotate : bool;
  grain : Grain;
  engraved_line : EngravedLine;
  borders : gmap string bool
}.
End ItemDetails.

(** A value of the dict built by [_create_panel_mapping]. *)
Module PanelDetails.
Record t := mk {
  name : string;
  width : float;
  height : float;
  grain : Grain
}.
End PanelDetails.

Definition _create_item_mapping (items : list ItemInput.t)
    (panel : PanelInput.t) : gmap string ItemDetails.t :=
  foldl (fun item_mapping item =>
    let transformed_item := _transform_item_for_calculation item panel in
    foldl (fun item_mapping i =>
      let item_id := unit_id (ItemInput.name item) i in
      <[item_id :=
          {| ItemDetails.name := ItemInput.name item;
             ItemDetails.width := TransformedItem.width transformed_item;
             ItemDetails.height := TransformedItem.height transformed_item;
             ItemDetails.original_width := ItemInput.width item;
             ItemDetails.original_height := ItemInput.height item;
             ItemDetails.can_rotate := ItemInput.isRotate item;
             ItemDetails.grain := ItemInput.grain item;
             ItemDetails.engraved_line := ItemInput.engraved_line item;
             ItemDetails.borders := ItemInput.borders item |}]> item_mapping)
      item_mapping (range (ItemInput.quantity item)))
    ∅ items.

Definition _create_panel_mapping (panels : list PanelInput.t)
    : gmap string PanelDetails.t :=
  foldl (fun panel_mapping panel =>
    foldl (fun panel_mapping i =>
      let panel_id := unit_id (PanelInput.name panel) i in
      <[panel_id :=
          {| PanelDetails.name := PanelInput.name panel;
             PanelDetails.width := PanelInput.width panel;
             PanelDetails.height := PanelInput.height panel;
             PanelDetails.grain := PanelInput.grain panel |}]> panel_mapping)
      panel_mapping (range (PanelInput.quantity panel)))
    ∅ panels.

(** [panel_mapping[panel_id]] raises [KeyError] on an unknown id; the
    message of a [KeyError] is the [repr] of the key. *)
Definition _build_panel_structure (panel_id : string)
    (panel_mapping : gmap string PanelDetails.t) : fallible PanelOutput.t :=
  match panel_mapping !! panel_id with
  | None => Raise "KeyError" (repr panel_id)
  | Some panel_data =>
      Ok {| PanelOutput.panel_id := panel_id;
            PanelOutput.panel_name := PanelDetails.name panel_data;
            PanelOutput.width := PanelDetails.width panel_data;
            PanelOutput.height := PanelDetails.height panel_data;
            PanelOutput.used_items := [];
            PanelOutput.unused_areas := [] |}
  end.

(** [d.get(key, fallback)] on the optional dict [item_details]:
    [item_mapping.get(item_id, {})] is an empty dict for an unknown id,
    so every later [.get] on it yields its fallback. *)
Definition get {A B : Type} (d : option A) (key : A → B) (fallback : B) : B :=
  match d with
  | Some a => key a
  | None => fallback
  end.

(** [borders.get(edge, False)] *)
Definition border (borders : gmap string bool) (edge : string) : bool :=
  default false (borders !! edge).

Definition _transform_used_item_for_display (used_item : common.Used)
    (item_mapping : gmap string ItemDetails.t) (panel : PanelInput.t)
    : UsedItem.t :=
  let item_id := common.used_item used_item in
  let item_details := item_mapping !! item_id in
  let cutting_width :=
    default (get item_details ItemDetails.width 0%Q)
            (common.used_width used_item) in
  let cutting_height :=
    default (get item_details ItemDetails.height 0%Q)
            (common.used_height used_item) in
  let grain := get item_details ItemDetails.grain Gvertical in
  let engrand_line_origin := get item_details ItemDetails.engraved_line Enone in
  let borders := get item_details ItemDetails.borders no_borders in
  let '(engrand_line, borders) :=
    if decide (grain ≠ PanelInput.grain panel) then
      let engrand_line :=
        if decide (engrand_line_origin = Enone) then Enone
        else if decide (engrand_line_origin = Ehorizontal) then Evertical
        else Ehorizontal in
      let left := border borders "left" in
      let top := border borders "top" in
      let right := border borders "right" in
      let bottom := border borders "bottom" in
      let rotated_borders : gmap string bool :=
        <["left" := bottom]> (<["bottom" := right]> (<["right" := top]>
          (<["top" := left]> ∅))) in
      (engrand_line, rotated_borders)
    else (engrand_line_origin, borders) in
  {| UsedItem.item_id := item_id;
     UsedItem.name := get item_details ItemDetails.name "";
     UsedItem.width := cutting_width;
     UsedItem.height := cutting_height;
     UsedItem.x := common.used_x used_item;
     UsedItem.y := common.used_y used_item;
     UsedItem.rotate := common.used_rotate used_item;
     UsedItem.grain := grain;
     UsedItem.engraved_line := engrand_line;
     UsedItem.borders := borders |}.

(** [user_params.panels[0]] *)
Definition first_panel (panels : list PanelInput.t) : fallible PanelInput.t :=
  match panels with
  | panel :: _ => Ok panel
  | [] => Raise "IndexError" "list index out of range"
  end.

(** [if panel_id not in panels_dict: panels_dict[panel_id] = ...] *)
Definition ensure_panel (panel_id : string)
    (panel_mapping : gmap string PanelDetails.t)
    (panels_dict : gmap string PanelOutput.t)
    : fallible (gmap string PanelOutput.t) :=
  match panels_dict !! panel_id with
  | Some _ => Ok panels_dict
  | None =>
      panel_data ← _build_panel_structure panel_id panel_mapping;
      Ok (<[panel_id := panel_data]> panels_dict)
  end.

Definition append_used_item (enriched_item : UsedItem.t)
    (panel_data : PanelOutput.t) : PanelOutput.t :=
  {| PanelOutput.panel_id := PanelOutput.panel_id panel_data;
     PanelOutput.panel_name := PanelOutput.panel_name panel_data;
     PanelOutput.width := PanelOutput.width panel_data;
     PanelOutput.height := PanelOutput.height panel_data;
     PanelOutput.used_items :=
       PanelOutput.used_items panel_data ++ [enriched_item];
     PanelOutput.unused_areas := PanelOutput.unused_areas panel_data |}.

Definition append_unused_area (area : UnusedArea.t)
    (panel_data : PanelOutput.t) : PanelOutput.t :=
  {| PanelOutput.panel_id := PanelOutput.panel_id panel_data;
     PanelOutput.panel_name := PanelOutput.panel_name panel_data;
     PanelOutput.width := PanelOutput.width panel_data;
     PanelOutput.height := PanelOutput.height panel_data;
     PanelOutput.used_items := PanelOutput.used_items panel_data;
     PanelOutput.unused_areas :=
       PanelOutput.unused_areas panel_data ++ [area] |}.

(** The loop over [result["used"]]. *)
Fixpoint process_used (used : list common.Used)
    (item_mapping : gmap string ItemDetails.t)
    (panel_mapping : gmap string PanelDetails.t) (panel : PanelInput.t)
    (panels_dict : gmap string PanelOutput.t)
    : fallible (gmap string PanelOutput.t) :=
  match used with
  | [] => Ok panels_dict
  | used_item :: rest =>
      let panel_id := common.used_panel used_item in
      panels_dict ← ensure_panel panel_id panel_mapping panels_dict;
      let enriched_item :=
        _transform_used_item_for_display used_item item_mapping panel in
      process_used rest item_mapping panel_mapping panel
        (alter (append_used_item enriched_item) panel_id panels_dict)
  end.

(** The loop over [result["unused"]]. *)
Fixpoint process_unused (unused : list common.Unused)
    (panel_mapping : gmap string PanelDetails.t)
    (panels_dict : gmap string PanelOutput.t)
    : fallible (gmap string PanelOutput.t) :=
  match unused with
  | [] => Ok panels_dict
  | unused_area :: rest =>
      let panel_id := common.unused_panel unused_area in
      panels_dict ← ensure_panel panel_id panel_mapping panels_dict;
      let area :=
        {| UnusedArea.width := common.unused_width unused_area;
           UnusedArea.height := common.unused_height unused_area;
           UnusedArea.x := common.unused_x unused_area;
           UnusedArea.y := common.unused_y unused_area |} in
      process_unused rest panel_mapping
        (alter (append_unused_area area) panel_id panels_dict)
  end.

(** The order of [sorted(..., key=lambda x: x["panel_id"])]: strings
    compare character by character. Every value of [panels_dict] holds
    its own key as [panel_id], so the keys of the sort are distinct and
    the order in which the dict lists its values does not matter. *)
Definition panel_id_le (a b : PanelOutput.t) : Prop :=
  String.leb (PanelOutput.panel_id a) (PanelOutput.panel_id b) = true.

Global Instance panel_id_le_dec : RelDecision panel_id_le.
Proof. intros a b. unfold panel_id_le. apply _. Defined.

Definition len {A : Type} (l : list A) : Z := Z.of_nat (length l).

Definition transform_result (result : common.ResultJson)
    (user_params : UserParams.t) : fallible CalculationResponse.t :=
  panel ← first_panel (UserParams.panels user_params);
  let item_mapping :=
    _create_item_mapping (UserParams.items user_params) panel in
  let panel_mapping := _create_panel_mapping (UserParams.panels user_params) in
  let panels_dict : gmap string PanelOutput.t := ∅ in
  panels_dict ←
    match common.used result with
    | Some used => process_used used item_mapping panel_mapping panel panels_dict
    | None => Ok panels_dict
    end;
  panels_dict ←
    match common.unused result with
    | Some unused => process_unused unused panel_mapping panels_dict
    | None => Ok panels_dict
    end;
  let panels_list := merge_sort panel_id_le (map_to_list panels_dict).*2 in
  let cuts := default [] (common.cuts result) in
  let summary : gmap string Z :=
    <["total_unused_areas" := len (default [] (common.unused result))]>
      (<["total_items_placed" := len (default [] (common.used result))]>
        (<["total_panels_used" := len panels_list]> ∅)) in
  Ok {| CalculationResponse.success := true;
        CalculationResponse.panels := panels_list;
        CalculationResponse.cuts := cuts;
        CalculationResponse.summary := summary;
        CalculationResponse.error := None;
        CalculationResponse.calculation_time := None |}.

Definition _increment_panel_quantities (user_params : UserParams.t)
    (increment : Z) : UserParams.t :=
  let new_panels :=
    foldl (fun new_panels panel =>
      new_panels ++
        [{| PanelInput.name := PanelInput.name panel;
            PanelInput.width := PanelInput.width panel;
            PanelInput.height := PanelInput.height panel;
            PanelInput.quantity := PanelInput.quantity panel + increment;
            PanelInput.grain := PanelInput.grain panel |}])
      [] (UserParams.panels user_params) in
  {| UserParams.cut_width := UserParams.cut_width user_params;
     UserParams.min_initial_usage := UserParams.min_initial_usage user_params;
     UserParams.panels := new_panels;
     UserParams.items := UserParams.items user_params |}.

(** [sum(panel.quantity for panel in user_params.panels)] *)
Definition _get_total_panel_quantity (user_params : UserParams.t) : Z :=
  foldl (fun total panel => total + PanelInput.quantity panel) 0
        (UserParams.panels user_params).

(** The failure responses of [calculate] and of the entry point. *)
Definition failure_response (error : string) (calculation_time : option float)
    : CalculationResponse.t :=
  {| CalculationResponse.success := false;
     CalculationResponse.panels := [];
     CalculationResponse.cuts := [];
     CalculationResponse.summary := ∅;
     CalculationResponse.error := Some error;
     CalculationResponse.calculation_time := calculation_time |}.

Definition unresolvable_message (current_total_panels : Z) : string :=
  "UnresolvableError: No valid cutting solution found even with "
  +:+ str current_total_panels
  +:+ " panels. Try adjusting item dimensions or using different optimization method.".

(** What one pass through the body of [while True] ends with: a
    [return], or the next value of [current_user_params]. *)
Inductive Step :=
| Return (response : CalculationResponse.t)
| Retry (current_user_params : UserParams.t).

Section Calculate.

(** [common.result_to_json(opcut_calculate.calculate(method, params))],
    or the exception the call raises. *)
Variable opcut_calculate : common.Method → common.Params → common.Outcome.

(** [time.time()]: the value of the [n]-th reading of the clock. The
    number of readings made so far is threaded through the code. *)
Variable time_time : nat → float.

(** The [common.Params] built from the current request. *)
Definition opcut_params (current_user_params : UserParams.t)
    (panel : PanelInput.t) : common.Params :=
  let panels_list := _expand_panels (UserParams.panels current_user_params) in
  let items_list := _expand_items (UserParams.items current_user_params) panel in
  {| common.cut_width := UserParams.cut_width current_user_params;
     common.min_initial_usage :=
       UserParams.min_initial_usage current_user_params;
     common.panels := panels_list;
     common.items := items_list |}.

(** The body of the [while True] loop of [calculate], with its two
    [except] clauses. *)
Definition attempt (opcut_method : common.Method) (start_time : float)
    (clock : nat) (current_user_params : UserParams.t) : Step * nat :=
  match first_panel (UserParams.panels current_user_params) with
  | Raise category message =>
      let calculation_time := (time_time clock - start_time)%Q in
      (Return (failure_response (category +:+ ": " +:+ message)
                                (Some calculation_time)), S clock)
  | Ok panel =>
      match opcut_calculate opcut_method
              (opcut_params current_user_params panel) with
      | common.Solved result_json =>
          let calculation_time := (time_time clock - start_time)%Q in
          match transform_result result_json current_user_params with
          | Ok transformed_result =>
              (Return
                 {| CalculationResponse.success :=
                      CalculationResponse.success transformed_result;
                    CalculationResponse.panels :=
                      CalculationResponse.panels transformed_result;
                    CalculationResponse.cuts :=
                      CalculationResponse.cuts transformed_result;
                    CalculationResponse.summary :=
                      CalculationResponse.summary transformed_result;
                    CalculationResponse.error :=
                      CalculationResponse.error transformed_result;
                    CalculationResponse.calculation_time :=
                      Some calculation_time |}, S clock)
          | Raise category message =>
              let calculation_time :=
                (time_time (S clock) - start_time)%Q in
              (Return (failure_response (category +:+ ": " +:+ message)
                                        (Some calculation_time)),
               S (S clock))
          end
      | common.UnresolvableError message =>
          let calculation_time := (time_time clock - start_time)%Q in
          let current_total_panels :=
            _get_total_panel_quantity current_user_params in
          if decide (current_total_panels < 50) then
            (Retry (_increment_panel_quantities current_user_params 1),
             S clock)
          else
            (Return (failure_response
                       (unresolvable_message current_total_panels)
                       (Some calculation_time)), S clock)
      | common.OtherError category message =>
          let calculation_time := (time_time clock - start_time)%Q in
          (Return (failure_response (category +:+ ": " +:+ message)
                                    (Some calculation_time)), S clock)
      end
  end.

(** The [while True] loop. [fuel] bounds the number of passes
    ([retry_loop_terminates] shows which amount is always enough). The
    second component of the value lists, in order, each value
    [current_user_params] had when the body was entered: one entry
    per attempt. *)
Fixpoint retry_loop (fuel : nat) (opcut_method : common.Method)
    (start_time : float) (clock : nat) (current_user_params : UserParams.t)
    : option (CalculationResponse.t * list UserParams.t) :=
  match fuel with
  | O => None
  | S fuel =>
      match attempt opcut_method start_time clock current_user_params with
      | (Return response, _) => Some (response, [current_user_params])
      | (Retry next_user_params, clock) =>
          '(response, attempts) ←
            retry_loop fuel opcut_method start_time clock next_user_params;
          Some (response, current_user_params :: attempts)
      end
  end.

Definition calculate (fuel : nat) (clock : nat) (user_params : UserParams.t)
    (method : string)
    : option (fallible CalculationResponse.t * list UserParams.t) :=
  match method_map method with
  | None => Some (Raise "ValueError" ("Unknown method: " +:+ method), [])
  | Some opcut_method =>
      let start_time := time_time clock in
      '(response, attempts) ←
        retry_loop fuel opcut_method start_time (S clock) user_params;
      Some (Ok response, attempts)
  end.

(** The [/calculate] entry point. The value holds the response, the
    state of the submitted [user_params] object when the call ends
    and the attempts of [calculate]. *)
Definition calculate_optimization (fuel : nat) (clock : nat)
    (user_params : UserParams.t) (method : string)
    : option (CalculationResponse.t * UserParams.t * list UserParams.t) :=
  match UserParams.panels user_params with
  | [] =>
      Some (failure_response ("API Error: " +:+ "list index out of range")
                             None, user_params, [])
  | panel :: other_panels =>
      let user_params :=
        {| UserParams.cut_width := UserParams.cut_width user_params;
           UserParams.min_initial_usage :=
             UserParams.min_initial_usage user_params;
           UserParams.panels :=
             {| PanelInput.name := PanelInput.name panel;
                PanelInput.width := PanelInput.width panel;
                PanelInput.height := PanelInput.height panel;
                PanelInput.quantity := 1;
                PanelInput.grain := PanelInput.grain panel |}
             :: other_panels;
           UserParams.items := UserParams.items user_params |} in
      '(outcome, attempts) ← calculate fuel clock user_params method;
      match outcome with
      | Ok response => Some (response, user_params, attempts)
      | Raise _ message =>
          Some (failure_response ("API Error: " +:+ message) None,
                user_params, attempts)
      end
  end.

End Calculate.

(** ** Definitions used in the statements and proofs *)

(** The identifiers of the units of one spec: [name_1 .. name_Q]. *)
Definition spec_identifiers (name : string) (quantity : Z) : list string :=
  (fun k => name +:+ "_" +:+ str k) <$> seqZ 1 quantity.

(** The copy of a panel spec [_increment_panel_quantities] makes. *)
Definition add_quantity (increment : Z) (panel : PanelInput.t)
    : PanelInput.t :=
  {| PanelInput.name := PanelInput.name panel;
     PanelInput.width := PanelInput.width panel;
     PanelInput.height := PanelInput.height panel;
     PanelInput.quantity := PanelInput.quantity panel + increment;
     PanelInput.grain := PanelInput.grain panel |}.

(** The panel unit ids a raw result mentions, placements first. *)
Definition mentioned_panels (result : common.ResultJson) : list string :=
  (common.used_panel <$> default [] (common.used result))
  ++ (common.unused_panel <$> default [] (common.unused result)).

(** [sub in s] *)
Fixpoint contains (sub s : string) : bool :=
  String.prefix sub s ||
  match s with
  | EmptyString => false
  | String _ rest => contains sub rest
  end.

(** [c in s] for a character. *)
Fixpoint mentions (c : ascii) (s : string) : Prop :=
  match s with
  | EmptyString => False
  | String a rest => a = c ∨ mentions c rest
  end.

(** The value [_create_item_mapping] stores for the units of [item]. *)
Definition details_of (item : ItemInput.t) (panel : PanelInput.t)
    : ItemDetails.t :=
  {| ItemDetails.name := ItemInput.name item;
     ItemDetails.width :=
       TransformedItem.width (_transform_item_for_calculation item panel);
     ItemDetails.height :=
       TransformedItem.height (_transform_item_for_calculation item panel);
     ItemDetails.original_width := ItemInput.width item;
     ItemDetails.original_height := ItemInput.height item;
     ItemDetails.can_rotate := ItemInput.isRotate item;
     ItemDetails.grain := ItemInput.grain item;
     ItemDetails.engraved_line := ItemInput.engraved_line item;
     ItemDetails.borders := ItemInput.borders item |}.

Definition index_units (panel : PanelInput.t)
    (item_mapping : gmap string ItemDetails.t) (item : ItemInput.t)
    : gmap string ItemDetails.t :=
  foldl (fun item_mapping i =>
           <[unit_id (ItemInput.name item) i := details_of item panel]>
             item_mapping)
        item_mapping (range (ItemInput.quantity item)).

(** ** Sample requests *)

(** A packing capability that never finds a placement, one that breaks,
    and a clock that advances by one second per reading. *)
Definition always_infeasible (_ : common.Method) (_ : common.Params)
    : common.Outcome :=
  common.UnresolvableError "no fit".

Definition always_broken (_ : common.Method) (_ : common.Params)
    : common.Outcome :=
  common.OtherError "RuntimeError" "native module missing".

Definition ticking_clock (n : nat) : float := inject_Z (Z.of_nat n).

Definition sheet (quantity : Z) : PanelInput.t :=
  {| PanelInput.name := "sheet"; PanelInput.width := 2440;
     PanelInput.height := 1220; PanelInput.quantity := quantity;
     PanelInput.grain := Gvertical |}.

(** A strip too small for a door, with the grain of [sheet]. *)
Definition strip : PanelInput.t :=
  {| PanelInput.name := "strip"; PanelInput.width := 400;
     PanelInput.height := 200; PanelInput.quantity := 1;
     PanelInput.grain := Gvertical |}.

Definition offcut : PanelInput.t :=
  {| PanelInput.name := "offcut"; PanelInput.width := 1200;
     PanelInput.height := 600; PanelInput.quantity := 1;
     PanelInput.grain := Ghorizontal |}.

(** A shelf cut across the grain of [sheet], with an engraved line and
    an edge band on its top edge. *)
Definition shelf : ItemInput.t :=
  {| ItemInput.name := "shelf"; ItemInput.width := 500;
     ItemInput.height := 300; ItemInput.isRotate := false;
     ItemInput.quantity := 1; ItemInput.grain := Ghorizontal;
     ItemInput.engraved_line := Ehorizontal;
     ItemInput.borders := <["top" := true]> no_borders |}.

(** A door cut along the grain of [sheet]. *)
Definition door : ItemInput.t :=
  {| ItemInput.name := "door"; ItemInput.width := 500;
     ItemInput.height := 300; ItemInput.isRotate := false;
     ItemInput.quantity := 1; ItemInput.grain := Gvertical;
     ItemInput.engraved_line := Evertical;
     ItemInput.borders := <["left" := true]> no_borders |}.

Definition request (panels : list PanelInput.t) (items : list ItemInput.t)
    : UserParams.t :=
  {| UserParams.cut_width := 3; UserParams.min_initial_usage := false;
     UserParams.panels := panels; UserParams.items := items |}.

Definition placement (panel item : string) : common.Used :=
  {| common.used_panel := panel; common.used_item := item;
     common.used_x := 0; common.used_y := 0; common.used_rotate := false;
     common.used_width := None; common.used_height := None |}.

(** ** Definitions used for the further properties *)

(** The shape shared by [_create_item_mapping] and
    [_create_panel_mapping]: for each spec, one entry per unit. *)
Definition index_specs {S V : Type} (name : S → string) (quantity : S → Z)
    (value : S → V) (mapping : gmap string V) (specs : list S)
    : gmap string V :=
  foldl (fun mapping spec =>
    foldl (fun mapping i => <[unit_id (name spec) i := value spec]> mapping)
          mapping (range (quantity spec)))
    mapping specs.

(** The unit ids of a list of specs, in the order of expansion. *)
Definition unit_ids {S : Type} (name : S → string) (quantity : S → Z)
    (specs : list S) : list string :=
  flat_map (fun spec => unit_id (name spec) <$> range (quantity spec)) specs.

(** The value [_create_panel_mapping] stores for the units of [panel]. *)
Definition panel_details_of (panel : PanelInput.t) : PanelDetails.t :=
  {| PanelDetails.name := PanelInput.name panel;
     PanelDetails.width := PanelInput.width panel;
     PanelDetails.height := PanelInput.height panel;
     PanelDetails.grain := PanelInput.grain panel |}.

(** The entry [_build_panel_structure] makes for a known panel unit. *)
Definition fresh_panel (panel_id : string) (panel_data : PanelDetails.t)
    : PanelOutput.t :=
  {| PanelOutput.panel_id := panel_id;
     PanelOutput.panel_name := PanelDetails.name panel_data;
     PanelOutput.width := PanelDetails.width panel_data;
     PanelOutput.height := PanelDetails.height panel_data;
     PanelOutput.used_items := [];
     PanelOutput.unused_areas := [] |}.

(** The entry of [panel_id] once [ensure_panel] has run: the one that
    is there, or a fresh one for a known panel unit. *)
Definition ensured_panel (panel_mapping : gmap string PanelDetails.t)
    (panels_dict : gmap string PanelOutput.t) (panel_id : string)
    : option PanelOutput.t :=
  match panels_dict !! panel_id with
  | Some panel_data => Some panel_data
  | None => fresh_panel panel_id <$> panel_mapping !! panel_id
  end.

Definition with_used_items (shown : list UsedItem.t)
    (panel_data : PanelOutput.t) : PanelOutput.t :=
  {| PanelOutput.panel_id := PanelOutput.panel_id panel_data;
     PanelOutput.panel_name := PanelOutput.panel_name panel_data;
     PanelOutput.width := PanelOutput.width panel_data;
     PanelOutput.height := PanelOutput.height panel_data;
     PanelOutput.used_items := PanelOutput.used_items panel_data ++ shown;
     PanelOutput.unused_areas := PanelOutput.unused_areas panel_data |}.

Definition with_unused_areas (areas : list UnusedArea.t)
    (panel_data : PanelOutput.t) : PanelOutput.t :=
  {| PanelOutput.panel_id := PanelOutput.panel_id panel_data;
     PanelOutput.panel_name := PanelOutput.panel_name panel_data;
     PanelOutput.width := PanelOutput.width panel_data;
     PanelOutput.height := PanelOutput.height panel_data;
     PanelOutput.used_items := PanelOutput.used_items panel_data;
     PanelOutput.unused_areas := PanelOutput.unused_areas panel_data ++ areas |}.

(** The dict [transform_result] appends for an unused region. *)
Definition area_of (unused_area : common.Unused) : UnusedArea.t :=
  {| UnusedArea.width := common.unused_width unused_area;
     UnusedArea.height := common.unused_height unused_area;
     UnusedArea.x := common.unused_x unused_area;
     UnusedArea.y := common.unused_y unused_area |}.

(** The placements and the unused regions of a raw result that lie on
    one panel unit, in the order of the raw result. *)
Definition placements_on (panel_id : string) (result : common.ResultJson)
    : list common.Used :=
  filter (fun used_item => common.used_panel used_item = panel_id)
         (default [] (common.used result)).

Definition regions_on (panel_id : string) (result : common.ResultJson)
    : list common.Unused :=
  filter (fun unused_area => common.unused_panel unused_area = panel_id)
         (default [] (common.unused result)).

(** ** Sample results *)

(** A second item spec named [door], wider than the first. *)
Definition wide_door : ItemInput.t :=
  {| ItemInput.name := "door"; ItemInput.width := 700;
     ItemInput.height := 400; ItemInput.isRotate := true;
     ItemInput.quantity := 1; ItemInput.grain := Gvertical;
     ItemInput.engraved_line := Enone;
     ItemInput.borders := no_borders |}.

(** A door on the first sheet, a shelf on the second, and the rest of
    the first sheet. *)
Definition two_sheet_result : common.ResultJson :=
  {| common.used := Some [placement "sheet_1" "door_1";
                          placement "sheet_2" "shelf_1"];
     common.unused := Some [common.mkUnused "sheet_1" 1940 1220 500 0];
     common.cuts := None |}.

(** A result that places the door on a panel unit nobody asked for. *)
Definition stray_result : common.ResultJson :=
  {| common.used := Some [placement "plank_1" "door_1"];
     common.unused := Some []; common.cuts := None |}.

Definition always_solves (result_json : common.ResultJson)
    (_ : common.Method) (_ : common.Params) : common.Outcome :=
  common.Solved result_json.

(** The first sheet of the response assembled from [two_sheet_result]. *)
Definition first_sheet_output : PanelOutput.t :=
  {| PanelOutput.panel_id := "sheet_1";
     PanelOutput.panel_name := "sheet";
     PanelOutput.width := 2440; PanelOutput.height := 1220;
     PanelOutput.used_items :=
       [ {| UsedItem.item_id := "door_1"; UsedItem.name := "door";
            UsedItem.width := 500; UsedItem.height := 300;
            UsedItem.x := 0; UsedItem.y := 0;
            UsedItem.rotate := false; UsedItem.grain := Gvertical;
            UsedItem.engraved_line := Evertical;
            UsedItem.borders := <["left" := true]> no_borders |} ];
     PanelOutput.unused_areas :=
       [ {| UnusedArea.width := 1940; UnusedArea.height := 1220;
            UnusedArea.x := 500; UnusedArea.y := 0 |} ] |}.

(** The response assembled from [two_sheet_result]. *)
Definition two_sheet_response : CalculationResponse.t :=
  {| CalculationResponse.success := true;
     CalculationResponse.panels :=
       [ first_sheet_output;
         {| PanelOutput.panel_id := "sheet_2";
            PanelOutput.panel_name := "sheet";
            PanelOutput.width := 2440; PanelOutput.height := 1220;
            PanelOutput.used_items :=
              [ {| UsedItem.item_id := "shelf_1"; UsedItem.name := "shelf";
                   UsedItem.width := 300; UsedItem.height := 500;
                   UsedItem.x := 0; UsedItem.y := 0;
                   UsedItem.rotate := false; UsedItem.grain := Ghorizontal;
                   UsedItem.engraved_line := Evertical;
                   UsedItem.borders :=
                     <["left" := false]>
                       (<["bottom" := false]>
                          (<["right" := true]> (<["top" := false]> ∅))) |} ];
            PanelOutput.unused_areas := [] |} ];
     CalculationResponse.cuts := [];
     CalculationResponse.summary :=
       <["total_unused_areas" := 1]>
         (<["total_items_placed" := 2]> (<["total_panels_used" := 2]> ∅));
     CalculationResponse.error := None;
     CalculationResponse.calculation_time := None |}.

(** The attempts of a run from 48 sheets with [always_infeasible]. *)
Definition last_three_attempts : list UserParams.t :=
  [request [sheet 48] [door]; request [sheet 49] [door];
   request [sheet 50] [door]].

(** * Properties *)

(** ** Loops that append *)

Lemma foldl_append {A B : Type} (f : A → B) (l : list A) (acc : list B) :
  foldl (fun acc x => acc ++ [f x]) acc l = acc ++ (f <$> l).
Proof.
  revert acc. induction l as [|x l IH]; intros acc; simpl.
  - by rewrite app_nil_r.
  - rewrite IH. by rewrite <- app_assoc.
Qed.

Lemma foldl_append_nested {A I B : Type} (r : A → list I) (g : A → I → B)
    (l : list A) (acc : list B) :
  foldl (fun acc x => foldl (fun acc i => acc ++ [g x i]) acc (r x)) acc l
  = acc ++ flat_map (fun x => g x <$> r x) l.
Proof.
  revert acc. induction l as [|x l IH]; intros acc; simpl.
  - by rewrite app_nil_r.
  - rewrite IH, foldl_append. by rewrite <- app_assoc.
Qed.

(** The ordinals [i+1] of [range(q)] are [1 .. q]. *)
Lemma range_ordinals {B : Type} (f : Z → B) (q : Z) :
  (fun i => f (i + 1)) <$> range q = f <$> seqZ 1 q.
Proof.
  unfold range.
  replace (seqZ 1 q) with (Z.add 1 <$> seqZ 0 q) by apply (fmap_add_seqZ 1 0).
  rewrite <- list_fmap_compose.
  apply list_fmap_ext. intros _ i _. simpl. f_equal. lia.
Qed.

Lemma _expand_panels_flat (panels : list PanelInput.t) :
  _expand_panels panels =
  flat_map (fun panel =>
    (fun i => common.mkPanel (unit_id (PanelInput.name panel) i)
                (PanelInput.width panel) (PanelInput.height panel))
    <$> range (PanelInput.quantity panel)) panels.
Proof.
  unfold _expand_panels.
  by rewrite (foldl_append_nested
    (fun panel => range (PanelInput.quantity panel))
    (fun panel i => common.mkPanel (unit_id (PanelInput.name panel) i)
                      (PanelInput.width panel) (PanelInput.height panel))).
Qed.

Lemma _expand_items_flat (items : list ItemInput.t) (panel : PanelInput.t) :
  _expand_items items panel =
  flat_map (fun item =>
    (fun i =>
       common.mkItem (unit_id (ItemInput.name item) i)
         (TransformedItem.width (_transform_item_for_calculation item panel))
         (TransformedItem.height (_transform_item_for_calculation item panel))
         (ItemInput.isRotate item))
    <$> range (ItemInput.quantity item)) items.
Proof.
  unfold _expand_items.
  by rewrite (foldl_append_nested
    (fun item => range (ItemInput.quantity item))
    (fun item i =>
       common.mkItem (unit_id (ItemInput.name item) i)
         (TransformedItem.width (_transform_item_for_calculation item panel))
         (TransformedItem.height (_transform_item_for_calculation item panel))
         (ItemInput.isRotate item))).
Qed.

Lemma fmap_flat_map {A B C : Type} (f : B → C) (g : A → list B) (l : list A) :
  f <$> flat_map g l = flat_map (fun x => f <$> g x) l.
Proof.
  induction l as [|x l IH]; simpl; [done|]. by rewrite fmap_app, IH.
Qed.

Lemma panel_identifiers (panels : list PanelInput.t) :
  common.panel_id <$> _expand_panels panels =
  flat_map (fun panel =>
    spec_identifiers (PanelInput.name panel) (PanelInput.quantity panel))
    panels.
Proof.
  rewrite _expand_panels_flat, fmap_flat_map.
  apply flat_map_ext. intros panel. rewrite <- list_fmap_compose.
  unfold spec_identifiers.
  by rewrite <- (range_ordinals
                   (fun k => PanelInput.name panel +:+ "_" +:+ str k)).
Qed.

Lemma item_identifiers (items : list ItemInput.t) (panel : PanelInput.t) :
  common.item_id <$> _expand_items items panel =
  flat_map (fun item =>
    spec_identifiers (ItemInput.name item) (ItemInput.quantity item)) items.
Proof.
  rewrite _expand_items_flat, fmap_flat_map.
  apply flat_map_ext. intros item. rewrite <- list_fmap_compose.
  unfold spec_identifiers.
  by rewrite <- (range_ordinals
                   (fun k => ItemInput.name item +:+ "_" +:+ str k)).
Qed.

Lemma spec_identifiers_length (name : string) (quantity : Z) :
  len (spec_identifiers name quantity) = Z.max 0 quantity.
Proof.
  unfold len, spec_identifiers. rewrite length_fmap, length_seqZ. lia.
Qed.

(** C8. Quantity expansion is a function of the specs alone, so the same
    input always gives the same units. For a panel spec and for an item
    spec with quantity [Q] it yields the units [name_1 .. name_Q], in
    that order: [Q] of them (none when [Q] is not positive). For a list
    of specs the units of each spec follow one another in the order of
    the specs. *)
Theorem expansion_identifiers :
  (∀ panel,
     common.panel_id <$> _expand_panels [panel]
       = (fun k => PanelInput.name panel +:+ "_" +:+ str k)
           <$> seqZ 1 (PanelInput.quantity panel)
     ∧ len (_expand_panels [panel]) = Z.max 0 (PanelInput.quantity panel))
  ∧ (∀ item panel,
       common.item_id <$> _expand_items [item] panel
         = (fun k => ItemInput.name item +:+ "_" +:+ str k)
             <$> seqZ 1 (ItemInput.quantity item)
       ∧ len (_expand_items [item] panel) = Z.max 0 (ItemInput.quantity item))
  ∧ (∀ panels,
       common.panel_id <$> _expand_panels panels =
       flat_map (fun panel => common.panel_id <$> _expand_panels [panel])
                panels)
  ∧ (∀ items panel,
       common.item_id <$> _expand_items items panel =
       flat_map (fun item => common.item_id <$> _expand_items [item] panel)
                items).
Proof.
  assert (Hp : ∀ panel, common.panel_id <$> _expand_panels [panel]
    = spec_identifiers (PanelInput.name panel) (PanelInput.quantity panel)).
  { intros panel. rewrite panel_identifiers. simpl. apply app_nil_r. }
  assert (Hi : ∀ item panel, common.item_id <$> _expand_items [item] panel
    = spec_identifiers (ItemInput.name item) (ItemInput.quantity item)).
  { intros item panel. rewrite item_identifiers. simpl. apply app_nil_r. }
  split; [|split; [|split]].
  - intros panel. split; [apply Hp|].
    unfold len. rewrite <- (length_fmap common.panel_id), Hp.
    apply spec_identifiers_length.
  - intros item panel. split; [apply Hi|].
    unfold len. rewrite <- (length_fmap common.item_id), Hi.
    apply spec_identifiers_length.
  - intros panels. rewrite panel_identifiers.
    apply flat_map_ext. intros panel. by rewrite Hp.
  - intros items panel. rewrite item_identifiers.
    apply flat_map_ext. intros item. by rewrite Hi.
Qed.

Example expansion_three :
  common.panel_id <$>
    _expand_panels [PanelInput.mk "oak" 2440 1220 3 Gvertical;
                    PanelInput.mk "mdf" 2800 2070 2 Ghorizontal]
  = ["oak_1"; "oak_2"; "oak_3"; "mdf_1"; "mdf_2"].
Proof. reflexivity. Qed.

(** ** The retry controller *)

Lemma increment_panels (user_params : UserParams.t) (increment : Z) :
  UserParams.panels (_increment_panel_quantities user_params increment)
  = add_quantity increment <$> UserParams.panels user_params.
Proof.
  unfold _increment_panel_quantities. simpl.
  apply (foldl_append (add_quantity increment)).
Qed.

Lemma total_from (panels : list PanelInput.t) (start : Z) :
  foldl (fun total panel => total + PanelInput.quantity panel) start panels
  = start + foldl (fun total panel => total + PanelInput.quantity panel) 0 panels.
Proof.
  revert start. induction panels as [|panel panels IH]; intros start; simpl.
  - lia.
  - rewrite (IH (start + _)), (IH (0 + _)). lia.
Qed.

Lemma total_add_quantity (panels : list PanelInput.t) (increment start : Z) :
  foldl (fun total panel => total + PanelInput.quantity panel) start
        (add_quantity increment <$> panels)
  = foldl (fun total panel => total + PanelInput.quantity panel) start panels
    + increment * len panels.
Proof.
  unfold len. revert start.
  induction panels as [|panel panels IH]; intros start.
  - simpl. lia.
  - rewrite fmap_cons, length_cons, Nat2Z.inj_succ. cbn [foldl].
    rewrite IH. cbn [add_quantity PanelInput.quantity].
    rewrite (total_from panels (start + (_ + increment))).
    rewrite (total_from panels (start + _)). lia.
Qed.

Lemma total_increment (user_params : UserParams.t) (increment : Z) :
  _get_total_panel_quantity (_increment_panel_quantities user_params increment)
  = _get_total_panel_quantity user_params
    + increment * len (UserParams.panels user_params).
Proof.
  unfold _get_total_panel_quantity. rewrite increment_panels.
  apply total_add_quantity.
Qed.

Lemma total_increases (user_params : UserParams.t) :
  UserParams.panels user_params ≠ [] →
  _get_total_panel_quantity user_params
  < _get_total_panel_quantity (_increment_panel_quantities user_params 1).
Proof.
  intros Hne. rewrite total_increment. unfold len.
  destruct (UserParams.panels user_params); [done|]. simpl length. lia.
Qed.

Lemma first_panel_Ok (panels : list PanelInput.t) (panel : PanelInput.t) :
  first_panel panels = Ok panel → panels ≠ [].
Proof. by destruct panels. Qed.

Section CalculateProperties.

Variable opcut_calculate : common.Method → common.Params → common.Outcome.
Variable time_time : nat → float.

(** The only way round the loop: an infeasibility below the ceiling. *)
Lemma attempt_Retry opcut_method start_time clock user_params next clock' :
  attempt opcut_calculate time_time opcut_method start_time clock user_params
    = (Retry next, clock') →
  next = _increment_panel_quantities user_params 1
  ∧ _get_total_panel_quantity user_params < 50
  ∧ ∃ panel message,
      first_panel (UserParams.panels user_params) = Ok panel
      ∧ opcut_calculate opcut_method (opcut_params user_params panel)
        = common.UnresolvableError message.
Proof.
  unfold attempt.
  destruct (first_panel _) as [panel|] eqn:Hpanel; [|done].
  destruct (opcut_calculate _ _) as [result_json|message|] eqn:Hcall.
  - by destruct (transform_result _ _).
  - case_decide; [|done]. intros [= <- <-]. eauto 10.
  - done.
Qed.

Lemma attempt_infeasible opcut_method start_time clock user_params panel
    message :
  first_panel (UserParams.panels user_params) = Ok panel →
  opcut_calculate opcut_method (opcut_params user_params panel)
    = common.UnresolvableError message →
  attempt opcut_calculate time_time opcut_method start_time clock user_params =
    if decide (_get_total_panel_quantity user_params < 50)
    then (Retry (_increment_panel_quantities user_params 1), S clock)
    else (Return (failure_response
            (unresolvable_message (_get_total_panel_quantity user_params))
            (Some (time_time clock - start_time)%Q)), S clock).
Proof. intros Hpanel Hcall. unfold attempt. by rewrite Hpanel, Hcall. Qed.

(** The loop returns as soon as the fuel exceeds the distance of the
    total panel quantity to the ceiling. *)
Lemma retry_loop_terminates fuel opcut_method start_time clock user_params :
  (Z.to_nat (50 - _get_total_panel_quantity user_params) < fuel)%nat →
  is_Some (retry_loop opcut_calculate time_time fuel opcut_method start_time
                      clock user_params).
Proof.
  revert clock user_params.
  induction fuel as [|fuel IH]; intros clock user_params Hfuel; [lia|].
  simpl.
  destruct (attempt opcut_calculate time_time _ _ _ _)
    as [[response|next] clock'] eqn:Hstep; [done|].
  apply attempt_Retry in Hstep as (-> & Hlow & panel & _ & Hpanel & _).
  apply first_panel_Ok, total_increases in Hpanel.
  destruct (IH clock' (_increment_panel_quantities user_params 1))
    as [[response attempts] ->]; [lia|done].
Qed.

(** The attempts of a run: the first is the value the loop was
    entered with, and each later one is the increment of the one
    before it, made after an infeasibility below the ceiling. *)
Lemma retry_loop_attempts fuel opcut_method start_time clock user_params
    response attempts :
  retry_loop opcut_calculate time_time fuel opcut_method start_time clock
             user_params = Some (response, attempts) →
  head attempts = Some user_params
  ∧ ∀ i a b, attempts !! i = Some a → attempts !! S i = Some b →
      b = _increment_panel_quantities a 1
      ∧ _get_total_panel_quantity a < 50
      ∧ UserParams.panels a ≠ [].
Proof.
  revert clock user_params response attempts.
  induction fuel as [|fuel IH]; intros clock user_params response attempts;
    [done|].
  simpl.
  destruct (attempt opcut_calculate time_time _ _ _ _)
    as [[response'|next] clock'] eqn:Hstep.
  - intros [= <- <-]. split; [done|]. by intros [|i] a b.
  - destruct (retry_loop opcut_calculate time_time fuel _ _ _ _)
      as [[response' attempts']|] eqn:Hloop; [|done].
    simpl. intros [= <- <-].
    apply attempt_Retry in Hstep as (-> & Hlow & panel & _ & Hpanel & _).
    apply first_panel_Ok in Hpanel.
    destruct (IH _ _ _ _ Hloop) as [Hhead Hnext].
    split; [done|]. intros [|i] a b; simpl.
    + intros [= <-] Hb. destruct attempts'; simplify_eq/=. done.
    + apply Hnext.
Qed.


(** After an infeasibility below the ceiling the run goes on: the
    attempt that follows is the increment of the one that met it. *)
Lemma retry_loop_goes_round fuel opcut_method start_time clock user_params
    response attempts i current panel message :
  retry_loop opcut_calculate time_time fuel opcut_method start_time clock
             user_params = Some (response, attempts) →
  attempts !! i = Some current →
  first_panel (UserParams.panels current) = Ok panel →
  opcut_calculate opcut_method (opcut_params current panel)
    = common.UnresolvableError message →
  _get_total_panel_quantity current < 50 →
  attempts !! S i = Some (_increment_panel_quantities current 1).
Proof.
  revert clock user_params response attempts i.
  induction fuel as [|fuel IH];
    intros clock user_params response attempts i; [done|].
  simpl.
  destruct (attempt opcut_calculate time_time _ _ _ _)
    as [[returned|next] clock'] eqn:Hstep.
  - intros [= <- <-] Hi Hpanel Hcall Hlow.
    destruct i as [|i]; [|done]. injection Hi as <-.
    rewrite (attempt_infeasible _ _ _ _ _ _ Hpanel Hcall) in Hstep.
    by rewrite decide_True in Hstep.
  - destruct (retry_loop opcut_calculate time_time fuel _ _ _ _)
      as [[response' attempts']|] eqn:Hloop; [|done].
    simpl. intros [= <- <-] Hi Hpanel Hcall Hlow.
    destruct i as [|i].
    + injection Hi as <-.
      apply attempt_Retry in Hstep as (-> & _).
      destruct (retry_loop_attempts _ _ _ _ _ _ _ Hloop) as [Hhead _].
      rewrite head_lookup in Hhead. exact Hhead.
    + by apply (IH _ _ _ _ _ Hloop).
Qed.

(** C4. On an infeasibility signal with a total panel quantity below 50
    the loop body ends with a new value of the request in which the
    quantity of every panel spec is one more; with a non-empty panel
    list the total panel quantity of that new attempt is strictly
    greater. The loop returns once the fuel exceeds [50 - total]. In
    its run every attempt that meets an infeasibility signal with a
    total below 50 is followed by a next attempt, made with the
    incremented request; and each attempt is the increment of the one
    before it, with a strictly greater total. *)
Theorem retry_increments_and_terminates opcut_method start_time clock
    user_params :
  UserParams.panels user_params ≠ [] →
  (∀ panel message,
     first_panel (UserParams.panels user_params) = Ok panel →
     opcut_calculate opcut_method (opcut_params user_params panel)
       = common.UnresolvableError message →
     _get_total_panel_quantity user_params < 50 →
     attempt opcut_calculate time_time opcut_method start_time clock
             user_params
       = (Retry (_increment_panel_quantities user_params 1), S clock))
  ∧ PanelInput.quantity
      <$> UserParams.panels (_increment_panel_quantities user_params 1)
    = (fun panel => PanelInput.quantity panel + 1)
      <$> UserParams.panels user_params
  ∧ _get_total_panel_quantity user_params
    < _get_total_panel_quantity (_increment_panel_quantities user_params 1)
  ∧ ∀ fuel,
      (Z.to_nat (50 - _get_total_panel_quantity user_params) < fuel)%nat →
      ∃ response attempts,
        retry_loop opcut_calculate time_time fuel opcut_method start_time
                   clock user_params = Some (response, attempts)
        ∧ head attempts = Some user_params
        ∧ (∀ i current panel message,
             attempts !! i = Some current →
             first_panel (UserParams.panels current) = Ok panel →
             opcut_calculate opcut_method (opcut_params current panel)
               = common.UnresolvableError message →
             _get_total_panel_quantity current < 50 →
             attempts !! S i
             = Some (_increment_panel_quantities current 1))
        ∧ ∀ i a b, attempts !! i = Some a → attempts !! S i = Some b →
            b = _increment_panel_quantities a 1
            ∧ PanelInput.quantity <$> UserParams.panels b
              = (fun panel => PanelInput.quantity panel + 1)
                <$> UserParams.panels a
            ∧ _get_total_panel_quantity a < _get_total_panel_quantity b.
Proof.
  intros Hne. split; [|split; [|split]].
  - intros panel message Hpanel Hcall Hlow.
    rewrite (attempt_infeasible _ _ _ _ _ _ Hpanel Hcall).
    by rewrite decide_True.
  - rewrite increment_panels, <- list_fmap_compose. done.
  - by apply total_increases.
  - intros fuel Hfuel.
    destruct (retry_loop_terminates fuel opcut_method start_time clock
                user_params Hfuel) as [[response attempts] Hloop].
    exists response, attempts. split; [done|].
    destruct (retry_loop_attempts _ _ _ _ _ _ _ Hloop) as [Hhead Hnext].
    split; [done|]. split.
    + intros i current panel message Hi Hpanel Hcall Hlow.
      by apply (retry_loop_goes_round _ _ _ _ _ _ _ _ _ _ _
                  Hloop Hi Hpanel Hcall Hlow).
    + intros i a b Ha Hb.
      destruct (Hnext i a b Ha Hb) as (-> & _ & Hpanels).
      split; [done|]. split.
      * rewrite increment_panels, <- list_fmap_compose. done.
      * by apply total_increases.
Qed.

Lemma prefix_append (sub post : string) : String.prefix sub (sub +:+ post) = true.
Proof.
  induction sub as [|c sub IH]; simpl.
  - by destruct post.
  - destruct (ascii_dec c c); [exact IH|done].
Qed.

Lemma contains_prefix (sub s : string) :
  String.prefix sub s = true → contains sub s = true.
Proof. intros H. destruct s; cbn [contains]; by rewrite H. Qed.

Lemma contains_infix (pre sub post : string) :
  contains sub (pre +:+ sub +:+ post) = true.
Proof.
  induction pre as [|c pre IH].
  - change ("" +:+ sub +:+ post) with (sub +:+ post).
    apply contains_prefix, prefix_append.
  - change (String c pre +:+ sub +:+ post)
      with (String c (pre +:+ sub +:+ post)).
    cbn [contains]. rewrite IH. apply orb_true_r.
Qed.

(** C5. When the packing capability reports infeasibility for a request
    whose total panel quantity is 50 or more, the loop returns at once
    with a failure response: [success] is false, the error message
    contains the decimal form of that total (so it contains "50" when
    the total is 50), the elapsed time is present, and [calculate]
    returns this response instead of raising. *)
Theorem ceiling_exhaustion_response fuel clock user_params method
    opcut_method panel message :
  method_map method = Some opcut_method →
  first_panel (UserParams.panels user_params) = Ok panel →
  opcut_calculate opcut_method (opcut_params user_params panel)
    = common.UnresolvableError message →
  50 ≤ _get_total_panel_quantity user_params →
  ∃ response error,
    (∀ start_time clock,
       retry_loop opcut_calculate time_time (S fuel) opcut_method start_time
                  clock user_params
       = Some ({| CalculationResponse.success := false;
                  CalculationResponse.panels := [];
                  CalculationResponse.cuts := [];
                  CalculationResponse.summary := ∅;
                  CalculationResponse.error := Some error;
                  CalculationResponse.calculation_time :=
                    Some (time_time clock - start_time)%Q |},
               [user_params]))
    ∧ calculate opcut_calculate time_time (S fuel) clock user_params method
      = Some (Ok response, [user_params])
    ∧ CalculationResponse.success response = false
    ∧ CalculationResponse.error response = Some error
    ∧ error = "UnresolvableError: No valid cutting solution found even with "
              +:+ str (_get_total_panel_quantity user_params)
              +:+ " panels. Try adjusting item dimensions or using different optimization method."
    ∧ contains (str (_get_total_panel_quantity user_params)) error = true
    ∧ (_get_total_panel_quantity user_params = 50 →
       contains "50" error = true).
Proof.
  intros Hmethod Hpanel Hcall Hceiling.
  assert (Hloop : ∀ start_time clock,
    retry_loop opcut_calculate time_time (S fuel) opcut_method start_time
               clock user_params
    = Some (failure_response
              (unresolvable_message (_get_total_panel_quantity user_params))
              (Some (time_time clock - start_time)%Q), [user_params])).
  { intros start_time clock'. simpl.
    rewrite (attempt_infeasible _ _ _ _ _ _ Hpanel Hcall).
    rewrite decide_False by lia. done. }
  eexists _, (unresolvable_message (_get_total_panel_quantity user_params)).
  split; [exact Hloop|]. split.
  { unfold calculate. rewrite Hmethod, Hloop. reflexivity. }
  split; [done|]. split; [done|]. split; [done|].
  assert (Hin : contains (str (_get_total_panel_quantity user_params))
    (unresolvable_message (_get_total_panel_quantity user_params)) = true)
    by apply contains_infix.
  split; [done|]. intros Heq. rewrite Heq in Hin |- *. exact Hin.
Qed.

(** C9. A failure of the packing capability other than infeasibility
    ends the loop in the attempt in which it occurs: no further attempt
    is made, and [calculate] returns (it does not raise) a response with
    [success] false, the error [category: message] and the elapsed
    time. *)
Theorem other_failure_not_retried fuel clock user_params method opcut_method
    panel category message :
  method_map method = Some opcut_method →
  first_panel (UserParams.panels user_params) = Ok panel →
  opcut_calculate opcut_method (opcut_params user_params panel)
    = common.OtherError category message →
  (∀ start_time clock,
     retry_loop opcut_calculate time_time (S fuel) opcut_method start_time
                clock user_params
     = Some ({| CalculationResponse.success := false;
                CalculationResponse.panels := [];
                CalculationResponse.cuts := [];
                CalculationResponse.summary := ∅;
                CalculationResponse.error :=
                  Some (category +:+ ": " +:+ message);
                CalculationResponse.calculation_time :=
                  Some (time_time clock - start_time)%Q |},
             [user_params]))
  ∧ calculate opcut_calculate time_time (S fuel) clock user_params method
    = Some (Ok {| CalculationResponse.success := false;
                  CalculationResponse.panels := [];
                  CalculationResponse.cuts := [];
                  CalculationResponse.summary := ∅;
                  CalculationResponse.error :=
                    Some (category +:+ ": " +:+ message);
                  CalculationResponse.calculation_time :=
                    Some (time_time (S clock) - time_time clock)%Q |},
            [user_params]).
Proof.
  intros Hmethod Hpanel Hcall.
  assert (Hloop : ∀ start_time clock,
    retry_loop opcut_calculate time_time (S fuel) opcut_method start_time
               clock user_params
    = Some (failure_response (category +:+ ": " +:+ message)
              (Some (time_time clock - start_time)%Q), [user_params])).
  { intros start_time clock'. simpl. unfold attempt.
    by rewrite Hpanel, Hcall. }
  split; [exact Hloop|].
  unfold calculate. rewrite Hmethod, Hloop. reflexivity.
Qed.

(** C10. Between two consecutive attempts of one run only the panel
    quantities change: the cut width, the min-initial-usage flag, the
    item specs and the name, width, height and grain of every panel
    spec are the same, and every panel quantity is one more. *)
Theorem retry_frame fuel opcut_method start_time clock user_params response
    attempts :
  retry_loop opcut_calculate time_time fuel opcut_method start_time clock
             user_params = Some (response, attempts) →
  ∀ i a b, attempts !! i = Some a → attempts !! S i = Some b →
    UserParams.cut_width b = UserParams.cut_width a
    ∧ UserParams.min_initial_usage b = UserParams.min_initial_usage a
    ∧ UserParams.items b = UserParams.items a
    ∧ PanelInput.name <$> UserParams.panels b
      = PanelInput.name <$> UserParams.panels a
    ∧ PanelInput.width <$> UserParams.panels b
      = PanelInput.width <$> UserParams.panels a
    ∧ PanelInput.height <$> UserParams.panels b
      = PanelInput.height <$> UserParams.panels a
    ∧ PanelInput.grain <$> UserParams.panels b
      = PanelInput.grain <$> UserParams.panels a
    ∧ PanelInput.quantity <$> UserParams.panels b
      = (fun panel => PanelInput.quantity panel + 1) <$> UserParams.panels a.
Proof.
  intros Hloop i a b Ha Hb.
  destruct (retry_loop_attempts _ _ _ _ _ _ _ Hloop) as [_ Hnext].
  destruct (Hnext i a b Ha Hb) as (-> & _ & _).
  rewrite increment_panels, <- !list_fmap_compose. done.
Qed.

End CalculateProperties.

(** ** Result assembly *)

Lemma ensure_panel_dom panel_id panel_mapping
    (panels_dict panels_dict' : gmap string PanelOutput.t) :
  ensure_panel panel_id panel_mapping panels_dict = Ok panels_dict' →
  dom panels_dict' = {[panel_id]} ∪ dom panels_dict.
Proof.
  unfold ensure_panel.
  destruct (panels_dict !! panel_id) as [panel_data|] eqn:Hin.
  - intros [= <-]. apply elem_of_dom_2 in Hin. symmetry.
    by apply subseteq_union_1_L, singleton_subseteq_l.
  - destruct (_build_panel_structure _ _) as [panel_data|]; [|done].
    simpl. intros [= <-]. apply dom_insert_L.
Qed.

Lemma process_used_dom used item_mapping panel_mapping panel
    (panels_dict panels_dict' : gmap string PanelOutput.t) :
  process_used used item_mapping panel_mapping panel panels_dict
    = Ok panels_dict' →
  dom panels_dict' = dom panels_dict ∪ list_to_set (common.used_panel <$> used).
Proof.
  revert panels_dict.
  induction used as [|used_item used IH]; intros panels_dict; simpl.
  - intros [= <-]. by rewrite (right_id_L ∅ (∪)).
  - destruct (ensure_panel _ _ _) as [ensured|] eqn:Hensure; [|done].
    simpl. intros Hrest. apply IH in Hrest. apply ensure_panel_dom in Hensure.
    rewrite Hrest, dom_alter_L, Hensure.
    by rewrite (assoc_L (∪)), (comm_L (∪) (dom panels_dict)).
Qed.

Lemma process_unused_dom unused panel_mapping
    (panels_dict panels_dict' : gmap string PanelOutput.t) :
  process_unused unused panel_mapping panels_dict = Ok panels_dict' →
  dom panels_dict'
  = dom panels_dict ∪ list_to_set (common.unused_panel <$> unused).
Proof.
  revert panels_dict.
  induction unused as [|unused_area unused IH]; intros panels_dict; simpl.
  - intros [= <-]. by rewrite (right_id_L ∅ (∪)).
  - destruct (ensure_panel _ _ _) as [ensured|] eqn:Hensure; [|done].
    simpl. intros Hrest. apply IH in Hrest. apply ensure_panel_dom in Hensure.
    rewrite Hrest, dom_alter_L, Hensure.
    by rewrite (assoc_L (∪)), (comm_L (∪) (dom panels_dict)).
Qed.

Lemma size_list_to_set_remove_dups (ids : list string) :
  size (list_to_set ids : gset string) = length (remove_dups ids).
Proof.
  rewrite <- (size_list_to_set (C := gset string) (remove_dups ids))
    by apply NoDup_remove_dups.
  f_equal. apply set_eq. intros id.
  by rewrite !elem_of_list_to_set, elem_of_remove_dups.
Qed.

(** C7. When assembly succeeds, [total_items_placed] is the number of
    placement records of the raw result and [total_panels_used] is the
    number of distinct panel unit ids among its placements and unused
    regions, which is also the number of panels of the response. *)
Theorem summary_consistency result user_params response :
  transform_result result user_params = Ok response →
  CalculationResponse.summary response !! "total_items_placed"
    = Some (len (default [] (common.used result)))
  ∧ CalculationResponse.summary response !! "total_panels_used"
    = Some (len (remove_dups (mentioned_panels result)))
  ∧ len (CalculationResponse.panels response)
    = len (remove_dups (mentioned_panels result)).
Proof.
  unfold transform_result.
  destruct (first_panel _) as [panel|]; [|done]. simpl.
  set (item_mapping := _create_item_mapping _ _).
  set (panel_mapping := _create_panel_mapping _).
  destruct (match common.used result with
            | Some used => process_used used item_mapping panel_mapping panel ∅
            | None => Ok ∅ end) as [with_used|] eqn:Hused; [|done].
  simpl.
  destruct (match common.unused result with
            | Some unused => process_unused unused panel_mapping with_used
            | None => Ok with_used end) as [panels_dict|] eqn:Hunused; [|done].
  simpl. intros [= <-]. simpl.
  assert (Hdom : dom panels_dict = list_to_set (mentioned_panels result)).
  { unfold mentioned_panels. rewrite list_to_set_app_L.
    assert (dom with_used
            = list_to_set (common.used_panel <$> default [] (common.used result)))
      as Hdom1.
    { destruct (common.used result) as [used|]; simpl.
      - apply process_used_dom in Hused.
        by rewrite Hused, dom_empty_L, (left_id_L ∅ (∪)).
      - injection Hused as <-. by rewrite dom_empty_L. }
    destruct (common.unused result) as [unused|]; simpl.
    - apply process_unused_dom in Hunused. by rewrite Hunused, Hdom1.
    - injection Hunused as <-.
      by rewrite Hdom1, (right_id_L ∅ (∪)). }
  assert (Hlen : len (merge_sort panel_id_le (map_to_list panels_dict).*2)
                 = len (remove_dups (mentioned_panels result))).
  { unfold len. f_equal.
    rewrite (Permutation_length (merge_sort_Permutation _ _)).
    rewrite length_fmap, length_map_to_list.
    rewrite <- size_list_to_set_remove_dups, <- Hdom. symmetry. apply size_dom. }
  split; [|split].
  - by rewrite lookup_insert_ne, lookup_insert_eq.
  - rewrite !lookup_insert_ne, lookup_insert_eq by done. by rewrite Hlen.
  - done.
Qed.

(** ** Unit identifiers *)

Lemma mentions_append (c : ascii) (s t : string) :
  mentions c t → mentions c (s +:+ t).
Proof. induction s as [|a s IH]; simpl; auto. Qed.

Lemma digits_no_underscore (d : Decimal.uint) :
  ¬ mentions "_" (NilEmpty.string_of_uint d).
Proof. induction d; simpl; [tauto|intros [H|H]; [discriminate H|tauto]..]. Qed.

Lemma decimal_no_underscore (d : Decimal.uint) :
  ¬ mentions "_" (NilZero.string_of_uint d).
Proof.
  destruct d; [|exact (digits_no_underscore _)..].
  simpl. intros [H|[]]. discriminate H.
Qed.

Lemma str_no_underscore (n : Z) : ¬ mentions "_" (str n).
Proof.
  unfold str, NilZero.string_of_int.
  destruct (Z.to_int n) as [d|d]; [apply decimal_no_underscore|].
  intros [H|H]; [discriminate H|]. by apply decimal_no_underscore in H.
Qed.

Lemma str_inj (a b : Z) : str a = str b → a = b.
Proof.
  assert (Hnil : ∀ n, Z.to_int n ≠ Decimal.Pos Decimal.Nil
                      ∧ Z.to_int n ≠ Decimal.Neg Decimal.Nil).
  { intros [|p|p]; simpl; split; try discriminate;
      intros [= H]; by apply DecimalPos.Unsigned.to_uint_nonnil in H. }
  unfold str. intros Heq. apply DecimalZ.to_int_inj.
  destruct (Hnil a) as [Ha1 Ha2], (Hnil b) as [Hb1 Hb2].
  pose proof (NilZero.isi _ Ha1 Ha2) as Ha.
  pose proof (NilZero.isi _ Hb1 Hb2) as Hb.
  rewrite Heq in Ha. congruence.
Qed.

Lemma append_nil_l (s : string) : "" +:+ s = s.
Proof. reflexivity. Qed.

Lemma append_cons (c : ascii) (s t : string) :
  String c s +:+ t = String c (s +:+ t).
Proof. reflexivity. Qed.

Lemma append_underscore_inj (name1 name2 s1 s2 : string) :
  ¬ mentions "_" s1 → ¬ mentions "_" s2 →
  name1 +:+ "_" +:+ s1 = name2 +:+ "_" +:+ s2 →
  name1 = name2 ∧ s1 = s2.
Proof.
  intros Hs1 Hs2. revert name2.
  induction name1 as [|c name1 IH]; intros [|c' name2] Heq;
    rewrite ?append_cons, ?append_nil_l in Heq.
  - by injection Heq as ->.
  - injection Heq as _ Heq.
    destruct Hs1. rewrite Heq. apply mentions_append. simpl. auto.
  - injection Heq as _ Heq.
    destruct Hs2. rewrite <- Heq. apply mentions_append. simpl. auto.
  - injection Heq as -> Heq. destruct (IH _ Heq) as [-> ->]. done.
Qed.

(** Two units have the same identifier only if they come from specs of
    the same name and have the same ordinal. *)
Lemma unit_id_inj (name1 name2 : string) (i1 i2 : Z) :
  unit_id name1 i1 = unit_id name2 i2 → name1 = name2 ∧ i1 = i2.
Proof.
  unfold unit_id. intros Heq.
  apply append_underscore_inj in Heq as [-> Heq];
    try apply str_no_underscore.
  apply str_inj in Heq. split; [done|lia].
Qed.

(** ** The item metadata index *)

Lemma _create_item_mapping_unfold items panel :
  _create_item_mapping items panel = foldl (index_units panel) ∅ items.
Proof. reflexivity. Qed.

Lemma index_ordinals_lookup (name : string) (details : ItemDetails.t)
    (ordinals : list Z) (item_mapping : gmap string ItemDetails.t)
    (id : string) :
  foldl (fun item_mapping i => <[unit_id name i := details]> item_mapping)
        item_mapping ordinals !! id
  = if decide (id ∈ unit_id name <$> ordinals) then Some details
    else item_mapping !! id.
Proof.
  revert item_mapping.
  induction ordinals as [|i ordinals IH]; intros item_mapping; cbn [foldl].
  - rewrite decide_False; [done|]. apply not_elem_of_nil.
  - rewrite IH, fmap_cons.
    destruct (decide (id ∈ unit_id name <$> ordinals)) as [Hin|Hin].
    + rewrite decide_True; [done|]. by apply elem_of_cons; right.
    + destruct (decide (id = unit_id name i)) as [->|Hne].
      * rewrite lookup_insert_eq, decide_True; [done|]. apply elem_of_cons; auto.
      * rewrite lookup_insert_ne by done. rewrite decide_False; [done|].
        intros [?|?]%elem_of_cons; done.
Qed.

Lemma index_units_other panel item_mapping item name i :
  name ≠ ItemInput.name item →
  index_units panel item_mapping item !! unit_id name i
  = item_mapping !! unit_id name i.
Proof.
  intros Hne. unfold index_units. rewrite index_ordinals_lookup.
  rewrite decide_False; [done|].
  intros (j & Heq & _)%list_elem_of_fmap.
  by apply unit_id_inj in Heq as [? _].
Qed.

Lemma index_units_own panel item_mapping item i :
  0 ≤ i < ItemInput.quantity item →
  index_units panel item_mapping item !! unit_id (ItemInput.name item) i
  = Some (details_of item panel).
Proof.
  intros Hi. unfold index_units. rewrite index_ordinals_lookup.
  rewrite decide_True; [done|].
  apply list_elem_of_fmap. exists i. split; [done|].
  unfold range. apply elem_of_seqZ. lia.
Qed.

Lemma index_all_other panel items item_mapping name i :
  name ∉ ItemInput.name <$> items →
  foldl (index_units panel) item_mapping items !! unit_id name i
  = item_mapping !! unit_id name i.
Proof.
  revert item_mapping.
  induction items as [|item items IH]; intros item_mapping Hnot; [done|].
  simpl. rewrite fmap_cons in Hnot.
  apply not_elem_of_cons in Hnot as [Hne Hnot].
  rewrite IH by done. by apply index_units_other.
Qed.

(** With distinct item names, the index maps every unit of an item of
    the request to the details of that item. *)
Lemma _create_item_mapping_lookup items panel item i :
  NoDup (ItemInput.name <$> items) → item ∈ items →
  0 ≤ i < ItemInput.quantity item →
  _create_item_mapping items panel !! unit_id (ItemInput.name item) i
  = Some (details_of item panel).
Proof.
  rewrite _create_item_mapping_unfold. generalize (∅ : gmap string ItemDetails.t).
  induction items as [|first items IH]; intros item_mapping Hnodup Hin Hi.
  - by apply elem_of_nil in Hin.
  - rewrite fmap_cons in Hnodup. apply NoDup_cons in Hnodup as [Hfresh Hnodup].
    simpl. apply elem_of_cons in Hin as [->|Hin].
    + rewrite index_all_other by done. by apply index_units_own.
    + by apply IH.
Qed.

(** ** The grain transform and the way back *)

(** C3 (amended). The loop body consults the packing capability at one
    input only, [opcut_params current_user_params panel] with [panel]
    the first panel spec of the request. Every item unit of that input
    has its width and height swapped exactly when the grain of its item
    spec differs from the grain of that first panel; otherwise both are
    passed unchanged. The panel a unit is later placed on plays no
    part. *)
Theorem cutting_orientation_by_first_panel user_params panel :
  first_panel (UserParams.panels user_params) = Ok panel →
  common.items (opcut_params user_params panel)
  = flat_map (fun item =>
      (fun i =>
         if decide (ItemInput.grain item ≠ PanelInput.grain panel)
         then common.mkItem (unit_id (ItemInput.name item) i)
                (ItemInput.height item) (ItemInput.width item)
                (ItemInput.isRotate item)
         else common.mkItem (unit_id (ItemInput.name item) i)
                (ItemInput.width item) (ItemInput.height item)
                (ItemInput.isRotate item))
      <$> range (ItemInput.quantity item))
    (UserParams.items user_params)
  ∧ ∀ packer packer' time_time opcut_method start_time clock,
      packer opcut_method (opcut_params user_params panel)
        = packer' opcut_method (opcut_params user_params panel) →
      attempt packer time_time opcut_method start_time clock user_params
      = attempt packer' time_time opcut_method start_time clock user_params.
Proof.
  intros Hpanel. split.
  - unfold opcut_params. cbn [common.items].
    rewrite _expand_items_flat. apply flat_map_ext. intros item.
    apply list_fmap_ext. intros _ i _.
    unfold _transform_item_for_calculation. by case_decide.
  - intros packer packer' time_time opcut_method start_time clock Hsame.
    unfold attempt. by rewrite Hpanel, Hsame.
Qed.

(** C1 (amended). Take an item of a request with distinct item names,
    one of its units, and a placement record of that unit that carries
    no width or height of its own. If the grains of the item and of the
    reference panel agree, the placed item shows the width, height,
    engraved-line orientation and borders of the item spec. If they
    differ, the engraved line is flipped ([none] stays [none]) and the
    borders are turned a quarter clockwise: left becomes top, top
    becomes right, right becomes bottom, bottom becomes left. *)
Theorem display_of_cutting_transform items panel item i used_item :
  NoDup (ItemInput.name <$> items) →
  item ∈ items →
  0 ≤ i < ItemInput.quantity item →
  common.used_item used_item = unit_id (ItemInput.name item) i →
  common.used_width used_item = None →
  common.used_height used_item = None →
  let shown :=
    _transform_used_item_for_display used_item
      (_create_item_mapping items panel) panel in
  UsedItem.name shown = ItemInput.name item
  ∧ UsedItem.grain shown = ItemInput.grain item
  ∧ (ItemInput.grain item = PanelInput.grain panel →
     UsedItem.width shown = ItemInput.width item
     ∧ UsedItem.height shown = ItemInput.height item
     ∧ UsedItem.engraved_line shown = ItemInput.engraved_line item
     ∧ UsedItem.borders shown = ItemInput.borders item)
  ∧ (ItemInput.grain item ≠ PanelInput.grain panel →
     UsedItem.engraved_line shown
       = match ItemInput.engraved_line item with
         | Ehorizontal => Evertical
         | Evertical => Ehorizontal
         | Enone => Enone
         end
     ∧ UsedItem.borders shown
       = <["left" := border (ItemInput.borders item) "bottom"]>
           (<["bottom" := border (ItemInput.borders item) "right"]>
              (<["right" := border (ItemInput.borders item) "top"]>
                 (<["top" := border (ItemInput.borders item) "left"]> ∅)))).
Proof.
  intros Hnodup Hin Hi Hid Hwidth Hheight shown. subst shown.
  unfold _transform_used_item_for_display.
  rewrite Hid, (_create_item_mapping_lookup _ _ _ _ Hnodup Hin Hi).
  rewrite Hwidth, Hheight.
  cbn [get default details_of ItemDetails.name ItemDetails.width
       ItemDetails.height ItemDetails.grain ItemDetails.engraved_line
       ItemDetails.borders].
  unfold _transform_item_for_calculation.
  destruct (decide (ItemInput.grain item ≠ PanelInput.grain panel))
    as [Hcross|Hsame].
  - cbn. split; [done|]. split; [done|]. split; [done|]. intros _.
    split; [|done]. by destruct (ItemInput.engraved_line item).
  - cbn. split; [done|]. split; [done|]. split; [done|]. intros Hcross.
    destruct Hsame. done.
Qed.

(** ** Placements of unknown item units *)

Lemma ensure_panel_known panel_id panel_mapping
    (panels_dict : gmap string PanelOutput.t) :
  is_Some (panel_mapping !! panel_id) →
  ∃ panels_dict', ensure_panel panel_id panel_mapping panels_dict
                  = Ok panels_dict'.
Proof.
  intros [panel_data Hknown]. unfold ensure_panel, _build_panel_structure.
  destruct (panels_dict !! panel_id); [eauto|]. rewrite Hknown. simpl. eauto.
Qed.

Lemma process_used_known used item_mapping panel_mapping panel
    (panels_dict : gmap string PanelOutput.t) :
  (∀ id, id ∈ common.used_panel <$> used → is_Some (panel_mapping !! id)) →
  ∃ panels_dict', process_used used item_mapping panel_mapping panel panels_dict
                  = Ok panels_dict'.
Proof.
  revert panels_dict.
  induction used as [|used_item used IH]; intros panels_dict Hknown; simpl.
  - eauto.
  - destruct (ensure_panel_known (common.used_panel used_item) panel_mapping
                panels_dict) as [ensured ->].
    { apply Hknown. rewrite fmap_cons. apply elem_of_cons. auto. }
    simpl. apply IH. intros id Hid. apply Hknown.
    rewrite fmap_cons. apply elem_of_cons. auto.
Qed.

Lemma process_unused_known unused panel_mapping
    (panels_dict : gmap string PanelOutput.t) :
  (∀ id, id ∈ common.unused_panel <$> unused → is_Some (panel_mapping !! id)) →
  ∃ panels_dict', process_unused unused panel_mapping panels_dict
                  = Ok panels_dict'.
Proof.
  revert panels_dict.
  induction unused as [|unused_area unused IH]; intros panels_dict Hknown; simpl.
  - eauto.
  - destruct (ensure_panel_known (common.unused_panel unused_area) panel_mapping
                panels_dict) as [ensured ->].
    { apply Hknown. rewrite fmap_cons. apply elem_of_cons. auto. }
    simpl. apply IH. intros id Hid. apply Hknown.
    rewrite fmap_cons. apply elem_of_cons. auto.
Qed.

(** C6 (amended). A placement record whose item unit id is absent from
    the item metadata index does not make assembly fail. Its placed
    item carries the id, coordinates and rotate flag of the record with
    default metadata: empty name, grain vertical, no engraved line, no
    borders, and the width and height of the record or 0. Assembly
    returns a successful response for every raw result whose panel unit
    ids are known, whatever its item unit ids. *)
Theorem unknown_item_gets_default_metadata :
  (∀ used_item item_mapping panel,
     item_mapping !! common.used_item used_item = None →
     _transform_used_item_for_display used_item item_mapping panel
     = {| UsedItem.item_id := common.used_item used_item;
          UsedItem.name := "";
          UsedItem.width := default 0%Q (common.used_width used_item);
          UsedItem.height := default 0%Q (common.used_height used_item);
          UsedItem.x := common.used_x used_item;
          UsedItem.y := common.used_y used_item;
          UsedItem.rotate := common.used_rotate used_item;
          UsedItem.grain := Gvertical;
          UsedItem.engraved_line := Enone;
          UsedItem.borders := no_borders |})
  ∧ (∀ result user_params,
       UserParams.panels user_params ≠ [] →
       (∀ id, id ∈ mentioned_panels result →
              is_Some (_create_panel_mapping (UserParams.panels user_params)
                         !! id)) →
       ∃ response, transform_result result user_params = Ok response
                   ∧ CalculationResponse.success response = true).
Proof.
  split.
  - intros used_item item_mapping panel Hunknown.
    unfold _transform_used_item_for_display. rewrite Hunknown.
    cbn [get]. by case_decide.
  - intros result user_params Hpanels Hknown. unfold transform_result.
    assert (∃ panel, first_panel (UserParams.panels user_params) = Ok panel)
      as [panel ->].
    { destruct (UserParams.panels user_params); [done|]. simpl. eauto. }
    cbn [mbind fallible_bind].
    set (item_mapping := _create_item_mapping _ _).
    set (panel_mapping := _create_panel_mapping _) in *.
    assert (∃ with_used,
      match common.used result with
      | Some used => process_used used item_mapping panel_mapping panel ∅
      | None => Ok ∅
      end = Ok with_used) as [with_used ->].
    { destruct (common.used result) as [used|] eqn:Hused; [|eauto].
      apply process_used_known. intros id Hid. apply Hknown.
      unfold mentioned_panels. rewrite Hused. apply elem_of_app. auto. }
    cbn [mbind fallible_bind].
    assert (∃ panels_dict,
      match common.unused result with
      | Some unused => process_unused unused panel_mapping with_used
      | None => Ok with_used
      end = Ok panels_dict) as [panels_dict ->].
    { destruct (common.unused result) as [unused|] eqn:Hunused; [|eauto].
      apply process_unused_known. intros id Hid. apply Hknown.
      unfold mentioned_panels. rewrite Hunused. apply elem_of_app. auto. }
    cbn [mbind fallible_bind]. eauto.
Qed.

(** ** Concrete requests *)

(** Scenario A: one sheet, one door along the grain. *)
Example scenario_A :
  CalculationResponse.panels <$>
    transform_result
      {| common.used := Some [placement "sheet_1" "door_1"];
         common.unused := Some []; common.cuts := None |}
      (request [sheet 1] [door])
  = Ok [ {| PanelOutput.panel_id := "sheet_1";
            PanelOutput.panel_name := "sheet";
            PanelOutput.width := 2440; PanelOutput.height := 1220;
            PanelOutput.used_items :=
              [ {| UsedItem.item_id := "door_1"; UsedItem.name := "door";
                   UsedItem.width := 500; UsedItem.height := 300;
                   UsedItem.x := 0; UsedItem.y := 0;
                   UsedItem.rotate := false; UsedItem.grain := Gvertical;
                   UsedItem.engraved_line := Evertical;
                   UsedItem.borders := <["left" := true]> no_borders |} ];
            PanelOutput.unused_areas := [] |} ].
Proof. vm_compute. reflexivity. Qed.

(** C1, as stated, fails for a shelf cut across the grain: the placed
    item shows the engraved line flipped and the top border moved to
    the right edge (and the cutting width and height). *)
Lemma round_trip_counterexample :
  let shown :=
    _transform_used_item_for_display (placement "sheet_1" "shelf_1")
      (_create_item_mapping [shelf] (sheet 1)) (sheet 1) in
  ItemInput.engraved_line shelf = Ehorizontal
  ∧ UsedItem.engraved_line shown = Evertical
  ∧ border (ItemInput.borders shelf) "top" = true
  ∧ border (UsedItem.borders shown) "top" = false
  ∧ border (UsedItem.borders shown) "right" = true
  ∧ ¬ (UsedItem.width shown = ItemInput.width shelf
       ∧ UsedItem.height shown = ItemInput.height shelf
       ∧ UsedItem.engraved_line shown = ItemInput.engraved_line shelf
       ∧ ∀ edge, border (UsedItem.borders shown) edge
                 = border (ItemInput.borders shelf) edge).
Proof.
  repeat (split; [vm_compute; reflexivity|]).
  intros (_ & _ & Hline & _). vm_compute in Hline. discriminate Hline.
Qed.

(** C3, as stated, fails for a request with panels of both grains. The
    strip comes first and is too small for the door, so the placement
    puts the door on the offcut, whose grain differs from the grain of
    the door; yet the door was handed to the packing capability with
    its width and height unswapped, because the strip has its grain.
    Assembly accepts the placement and lists the door under the
    offcut. *)
Lemma per_assigned_panel_counterexample :
  let user_params := request [strip; offcut] [door] in
  let result_json :=
    {| common.used := Some [placement "offcut_1" "door_1"];
       common.unused :=
         Some [common.mkUnused "strip_1" 400 200 0 0;
               common.mkUnused "offcut_1" 697 600 503 0;
               common.mkUnused "offcut_1" 500 297 0 303];
       common.cuts := None |} in
  first_panel (UserParams.panels user_params) = Ok strip
  ∧ common.items (opcut_params user_params strip)
    = [common.mkItem "door_1" 500 300 false]
  ∧ (fun response : CalculationResponse.t =>
       (fun panel_data : PanelOutput.t =>
          (PanelOutput.panel_id panel_data,
           UsedItem.item_id <$> PanelOutput.used_items panel_data))
       <$> CalculationResponse.panels response)
    <$> transform_result result_json user_params
    = Ok [("offcut_1", ["door_1"]); ("strip_1", [])]
  ∧ PanelDetails.grain
      <$> _create_panel_mapping (UserParams.panels user_params) !! "offcut_1"
    = Some Ghorizontal
  ∧ ItemInput.grain door = Gvertical
  ∧ ItemInput.grain door ≠ PanelInput.grain offcut
  ∧ ¬ (common.items (opcut_params user_params strip)
       = [common.mkItem "door_1" (ItemInput.height door)
            (ItemInput.width door) false]).
Proof.
  repeat (split; [vm_compute; reflexivity|]).
  split; [discriminate|]. vm_compute. discriminate.
Qed.

(** C6, as stated, fails for a placement of a unit the index does not
    know: assembly succeeds and the placed item has default metadata. *)
Lemma unknown_item_counterexample :
  _create_item_mapping [door] (sheet 1) !! "ghost_1" = None
  ∧ transform_result
      {| common.used := Some [placement "sheet_1" "ghost_1"];
         common.unused := Some []; common.cuts := None |}
      (request [sheet 1] [door])
    = Ok {| CalculationResponse.success := true;
            CalculationResponse.panels :=
              [ {| PanelOutput.panel_id := "sheet_1";
                   PanelOutput.panel_name := "sheet";
                   PanelOutput.width := 2440; PanelOutput.height := 1220;
                   PanelOutput.used_items :=
                     [ {| UsedItem.item_id := "ghost_1"; UsedItem.name := "";
                          UsedItem.width := 0; UsedItem.height := 0;
                          UsedItem.x := 0; UsedItem.y := 0;
                          UsedItem.rotate := false;
                          UsedItem.grain := Gvertical;
                          UsedItem.engraved_line := Enone;
                          UsedItem.borders := no_borders |} ];
                   PanelOutput.unused_areas := [] |} ];
            CalculationResponse.cuts := [];
            CalculationResponse.summary :=
              <["total_unused_areas" := 0]>
                (<["total_items_placed" := 1]>
                   (<["total_panels_used" := 1]> ∅));
            CalculationResponse.error := None;
            CalculationResponse.calculation_time := None |}.
Proof. split; vm_compute; reflexivity. Qed.

(** C2. The entry point overwrites the quantity of the first panel spec
    of the submitted request with 1: submitted with three sheets, the
    request object holds one sheet when the call ends, and the first
    attempt runs with one sheet, whatever the packing capability and
    the clock do. *)
Theorem entry_point_overwrites_first_quantity
    (opcut_calculate : common.Method → common.Params → common.Outcome)
    (time_time : nat → float) :
  ∃ response after attempts,
    calculate_optimization opcut_calculate time_time 50 0
      (request [sheet 3] [door]) "greedy"
    = Some (response, after, attempts)
    ∧ after = request [sheet 1] [door]
    ∧ head attempts = Some (request [sheet 1] [door])
    ∧ _get_total_panel_quantity (request [sheet 3] [door]) = 3
    ∧ _get_total_panel_quantity after = 1.
Proof.
  destruct (retry_loop_terminates opcut_calculate time_time 50 common.GREEDY
              (time_time 0%nat) 1%nat (request [sheet 1] [door]))
    as [[response attempts] Hloop]; [vm_compute; lia|].
  exists response, (request [sheet 1] [door]), attempts.
  pose proof (retry_loop_attempts _ _ _ _ _ _ _ _ _ Hloop) as [Hhead _].
  split; [|by repeat split].
  unfold calculate_optimization, calculate.
  change (method_map "greedy") with (Some common.GREEDY).
  cbn [UserParams.panels request sheet PanelInput.name PanelInput.width
       PanelInput.height PanelInput.grain UserParams.cut_width
       UserParams.min_initial_usage UserParams.items].
  change (retry_loop opcut_calculate time_time 50 common.GREEDY
            (time_time 0%nat) 1%nat (request [sheet 1] [door])
          = Some (response, attempts)) in Hloop.
  unfold request, sheet in Hloop. rewrite Hloop. reflexivity.
Qed.

(** Scenario C: nothing ever fits. The entry point starts from one
    sheet, the loop tries 1, 2, ... 50 sheets and then gives up. *)
Example scenario_C :
  calculate_optimization always_infeasible ticking_clock 50 0
    (request [sheet 7] [door]) "greedy"
  = Some (failure_response
            "UnresolvableError: No valid cutting solution found even with 50 panels. Try adjusting item dimensions or using different optimization method."
            (Some 50%Q),
          request [sheet 1] [door],
          (fun quantity => request [sheet quantity] [door]) <$> seqZ 1 50).
Proof. vm_compute. reflexivity. Qed.

(** With three panel specs the total passes the ceiling without meeting
    it: 3, 6, ... 48, 51. *)
Example scenario_three_specs :
  (fun run : CalculationResponse.t * list UserParams.t =>
     (CalculationResponse.error run.1, _get_total_panel_quantity <$> run.2))
  <$> retry_loop always_infeasible ticking_clock 50 common.GREEDY 0%Q 0
        (request [sheet 1; sheet 1; sheet 1] [door])
  = Some (Some
            "UnresolvableError: No valid cutting solution found even with 51 panels. Try adjusting item dimensions or using different optimization method.",
          (fun k => 3 * k) <$> seqZ 1 17).
Proof. vm_compute. reflexivity. Qed.

(** The retry theorem on a request with 48 sheets and a packing
    capability that never finds a placement: the run goes on to 49
    sheets. *)
Lemma retry_increments_and_terminates_witness :
  UserParams.panels (request [sheet 48] [door]) ≠ []
  ∧ ∃ response attempts,
      retry_loop always_infeasible ticking_clock 3 common.GREEDY 0%Q 0
                 (request [sheet 48] [door])
      = Some (response, attempts)
      ∧ attempts !! 0%nat = Some (request [sheet 48] [door])
      ∧ attempts !! 1%nat = Some (request [sheet 49] [door])
      ∧ _get_total_panel_quantity (request [sheet 48] [door])
        < _get_total_panel_quantity (request [sheet 49] [door]).
Proof.
  split; [discriminate|].
  destruct (retry_increments_and_terminates always_infeasible ticking_clock
              common.GREEDY 0%Q 0%nat (request [sheet 48] [door]))
    as (_ & _ & Hgreater & Hrun); [discriminate|].
  destruct (Hrun 3%nat) as (response & attempts & Hloop & Hhead & Hround & _).
  { vm_compute. lia. }
  exists response, attempts. split; [exact Hloop|].
  rewrite <- head_lookup. split; [exact Hhead|]. split; [|exact Hgreater].
  apply (Hround 0%nat (request [sheet 48] [door]) (sheet 48) "no fit").
  - rewrite <- head_lookup. exact Hhead.
  - reflexivity.
  - reflexivity.
  - reflexivity.
Defined.

(** The ceiling theorem on a request with 50 sheets. *)
Lemma ceiling_exhaustion_response_witness :
  ∃ response error,
    calculate always_infeasible ticking_clock 1 0
      (request [sheet 50] [door]) "greedy"
    = Some (Ok response, [request [sheet 50] [door]])
    ∧ CalculationResponse.success response = false
    ∧ CalculationResponse.error response = Some error
    ∧ contains "50" error = true.
Proof.
  destruct (ceiling_exhaustion_response always_infeasible ticking_clock
              0 0 (request [sheet 50] [door]) "greedy" common.GREEDY
              (sheet 50) "no fit")
    as (response & error & _ & Hcalculate & Hsuccess & Herror & _ & _ & H50);
    [reflexivity|reflexivity|reflexivity|by vm_compute|].
  exists response, error. split; [exact Hcalculate|].
  split; [exact Hsuccess|]. split; [exact Herror|].
  apply H50. reflexivity.
Defined.

(** A broken packing capability: one attempt, one failure response. *)
Lemma other_failure_not_retried_witness :
  calculate always_broken ticking_clock 5 0 (request [sheet 1] [door]) "greedy"
  = Some (Ok {| CalculationResponse.success := false;
                CalculationResponse.panels := [];
                CalculationResponse.cuts := [];
                CalculationResponse.summary := ∅;
                CalculationResponse.error :=
                  Some "RuntimeError: native module missing";
                CalculationResponse.calculation_time :=
                  Some (ticking_clock 1 - ticking_clock 0)%Q |},
          [request [sheet 1] [door]]).
Proof.
  apply (other_failure_not_retried always_broken ticking_clock 4 0
           (request [sheet 1] [door]) "greedy" common.GREEDY (sheet 1)
           "RuntimeError" "native module missing"); reflexivity.
Defined.

(** The frame theorem on the first two attempts of a run from 48
    sheets. *)
Lemma retry_frame_witness :
  UserParams.items (request [sheet 49] [door])
    = UserParams.items (request [sheet 48] [door])
  ∧ PanelInput.quantity <$> UserParams.panels (request [sheet 49] [door])
    = (fun panel => PanelInput.quantity panel + 1)
      <$> UserParams.panels (request [sheet 48] [door]).
Proof.
  destruct (retry_frame always_infeasible ticking_clock 3 common.GREEDY
              0%Q 0%nat (request [sheet 48] [door])
              (failure_response (unresolvable_message 50) (Some 2%Q))
              [request [sheet 48] [door]; request [sheet 49] [door];
               request [sheet 50] [door]]
              ltac:(vm_compute; reflexivity) 0%nat
              (request [sheet 48] [door]) (request [sheet 49] [door])
              eq_refl eq_refl)
    as (_ & _ & Hitems & _ & _ & _ & _ & Hquantity).
  split; [exact Hitems|exact Hquantity].
Defined.

(** Two placements on two sheets and one unused region. *)
Lemma summary_consistency_witness :
  ∃ response,
    transform_result
      {| common.used := Some [placement "sheet_1" "door_1";
                              placement "sheet_2" "shelf_1"];
         common.unused :=
           Some [common.mkUnused "sheet_1" 1940 1220 500 0];
         common.cuts := None |}
      (request [sheet 2] [door; shelf]) = Ok response
    ∧ CalculationResponse.summary response !! "total_items_placed" = Some 2
    ∧ CalculationResponse.summary response !! "total_panels_used" = Some 2.
Proof.
  destruct (transform_result
      {| common.used := Some [placement "sheet_1" "door_1";
                              placement "sheet_2" "shelf_1"];
         common.unused :=
           Some [common.mkUnused "sheet_1" 1940 1220 500 0];
         common.cuts := None |}
      (request [sheet 2] [door; shelf])) as [response|category message]
    eqn:Hassembled.
  - exists response. split; [reflexivity|].
    destruct (summary_consistency _ _ _ Hassembled) as (Hplaced & Hused & _).
    split; [exact Hplaced|exact Hused].
  - vm_compute in Hassembled. discriminate Hassembled.
Defined.

(** A door along the grain of its sheet is shown as declared. *)
Lemma display_of_cutting_transform_witness :
  let shown :=
    _transform_used_item_for_display (placement "sheet_1" "door_1")
      (_create_item_mapping [door; shelf] (sheet 1)) (sheet 1) in
  UsedItem.width shown = 500%Q
  ∧ UsedItem.height shown = 300%Q
  ∧ UsedItem.engraved_line shown = Evertical
  ∧ UsedItem.borders shown = <["left" := true]> no_borders.
Proof.
  destruct (display_of_cutting_transform [door; shelf] (sheet 1) door 0
              (placement "sheet_1" "door_1")) as (_ & _ & Hsame & _).
  - by apply (bool_decide_unpack _); vm_compute.
  - apply elem_of_cons. left. reflexivity.
  - by vm_compute.
  - reflexivity.
  - reflexivity.
  - reflexivity.
  - exact (Hsame eq_refl).
Defined.

(** Against the first panel the door keeps its sides and the shelf has
    them swapped, whatever the grain of the offcut. *)
Lemma cutting_orientation_by_first_panel_witness :
  first_panel (UserParams.panels (request [sheet 1; offcut] [door; shelf]))
    = Ok (sheet 1)
  ∧ common.items
      (opcut_params (request [sheet 1; offcut] [door; shelf]) (sheet 1))
    = [common.mkItem "door_1" 500 300 false;
       common.mkItem "shelf_1" 300 500 false].
Proof.
  split; [reflexivity|].
  exact (proj1 (cutting_orientation_by_first_panel
                  (request [sheet 1; offcut] [door; shelf]) (sheet 1)
                  eq_refl)).
Defined.

(** A placement of a unit that no item spec of the request produces. *)
Lemma unknown_item_gets_default_metadata_witness :
  UsedItem.name
    (_transform_used_item_for_display (placement "sheet_1" "ghost_1")
       (_create_item_mapping [door] (sheet 1)) (sheet 1)) = ""
  ∧ ∃ response,
      transform_result
        {| common.used := Some [placement "sheet_1" "ghost_1"];
           common.unused := Some []; common.cuts := None |}
        (request [sheet 1] [door]) = Ok response
      ∧ CalculationResponse.success response = true.
Proof.
  destruct unknown_item_gets_default_metadata as [Hrecord Hassembly]. split.
  - rewrite Hrecord; [reflexivity|]. vm_compute. reflexivity.
  - apply Hassembly; [discriminate|].
    intros id Hid. apply list_elem_of_singleton in Hid. rewrite Hid.
    exists (PanelDetails.mk "sheet" 2440 1220 Gvertical).
    vm_compute. reflexivity.
Defined.

(** * Further properties *)

(** ** Unit identifiers and the two indexes *)

Lemma _create_panel_mapping_index panels :
  _create_panel_mapping panels
  = index_specs PanelInput.name PanelInput.quantity panel_details_of ∅ panels.
Proof. reflexivity. Qed.

Lemma _create_item_mapping_index items panel :
  _create_item_mapping items panel
  = index_specs ItemInput.name ItemInput.quantity
      (fun item => details_of item panel) ∅ items.
Proof. reflexivity. Qed.

Lemma panel_unit_ids panels :
  common.panel_id <$> _expand_panels panels
  = unit_ids PanelInput.name PanelInput.quantity panels.
Proof.
  rewrite _expand_panels_flat, fmap_flat_map. unfold unit_ids.
  apply flat_map_ext. intros panel. by rewrite <- list_fmap_compose.
Qed.

Lemma item_unit_ids items panel :
  common.item_id <$> _expand_items items panel
  = unit_ids ItemInput.name ItemInput.quantity items.
Proof.
  rewrite _expand_items_flat, fmap_flat_map. unfold unit_ids.
  apply flat_map_ext. intros item. by rewrite <- list_fmap_compose.
Qed.

Section IndexSpecs.

Context {S V : Type} (name : S → string) (quantity : S → Z) (value : S → V).

Lemma index_range_lookup (spec_name : string) (v : V) (ordinals : list Z)
    (mapping : gmap string V) (id : string) :
  foldl (fun mapping i => <[unit_id spec_name i := v]> mapping)
        mapping ordinals !! id
  = if decide (id ∈ unit_id spec_name <$> ordinals) then Some v
    else mapping !! id.
Proof.
  revert mapping.
  induction ordinals as [|i ordinals IH]; intros mapping; cbn [foldl].
  - rewrite decide_False; [done|]. apply not_elem_of_nil.
  - rewrite IH, fmap_cons.
    destruct (decide (id ∈ unit_id spec_name <$> ordinals)) as [Hin|Hin].
    + rewrite decide_True; [done|]. by apply elem_of_cons; right.
    + destruct (decide (id = unit_id spec_name i)) as [->|Hne].
      * rewrite lookup_insert_eq, decide_True; [done|].
        apply elem_of_cons; auto.
      * rewrite lookup_insert_ne by done. rewrite decide_False; [done|].
        intros [?|?]%elem_of_cons; done.
Qed.

Lemma index_specs_snoc mapping specs spec :
  index_specs name quantity value mapping (specs ++ [spec])
  = foldl (fun mapping i => <[unit_id (name spec) i := value spec]> mapping)
          (index_specs name quantity value mapping specs)
          (range (quantity spec)).
Proof. unfold index_specs. by rewrite foldl_snoc. Qed.

Lemma index_specs_app mapping specs specs' :
  index_specs name quantity value mapping (specs ++ specs')
  = index_specs name quantity value
      (index_specs name quantity value mapping specs) specs'.
Proof. unfold index_specs. by rewrite foldl_app. Qed.

(** A key is in the index exactly if it was there before or is the id
    of a unit of one of the specs. *)
Lemma index_specs_is_Some mapping specs id :
  is_Some (index_specs name quantity value mapping specs !! id)
  ↔ is_Some (mapping !! id) ∨ id ∈ unit_ids name quantity specs.
Proof.
  revert mapping. induction specs as [|spec specs IH]; intros mapping.
  - unfold unit_ids. simpl. split; [auto|]. intros [?|H]; [done|].
    by apply elem_of_nil in H.
  - change (spec :: specs) with ([spec] ++ specs).
    rewrite index_specs_app, IH.
    unfold unit_ids. cbn [flat_map app].
    unfold index_specs at 1. cbn [foldl]. rewrite index_range_lookup.
    rewrite elem_of_app.
    destruct (decide (id ∈ unit_id (name spec) <$> range (quantity spec)));
      split; intros H; try tauto.
    left. eauto.
Qed.

(** On specs sharing a name the last one wins: a unit id of a spec that
    no later spec shares its name with maps to the value of that
    spec. *)
Lemma index_specs_lookup_last mapping before spec after i :
  name spec ∉ name <$> after →
  0 ≤ i < quantity spec →
  index_specs name quantity value mapping (before ++ spec :: after)
    !! unit_id (name spec) i
  = Some (value spec).
Proof.
  intros Hlast Hi.
  change (spec :: after) with ([spec] ++ after).
  rewrite !index_specs_app.
  generalize (index_specs name quantity value mapping before). clear before.
  intros start.
  assert (Hown : index_specs name quantity value start [spec]
                   !! unit_id (name spec) i = Some (value spec)).
  { unfold index_specs. cbn [foldl]. rewrite index_range_lookup.
    rewrite decide_True; [done|].
    apply list_elem_of_fmap. exists i. split; [done|].
    unfold range. apply elem_of_seqZ. lia. }
  revert Hown. generalize (index_specs name quantity value start [spec]).
  induction after as [|other after IH]; intros current Hown; [done|].
  rewrite fmap_cons in Hlast. apply not_elem_of_cons in Hlast as [Hne Hlast].
  change (other :: after) with ([other] ++ after).
  rewrite index_specs_app. apply IH; [done|].
  unfold index_specs. cbn [foldl]. rewrite index_range_lookup.
  rewrite decide_False; [done|].
  intros (j & Heq & _)%list_elem_of_fmap.
  by apply unit_id_inj in Heq as [? _].
Qed.

(** Distinct names give distinct unit ids. *)
Lemma unit_ids_NoDup specs :
  NoDup (name <$> specs) → NoDup (unit_ids name quantity specs).
Proof.
  induction specs as [|spec specs IH]; intros Hnames.
  - constructor.
  - rewrite fmap_cons in Hnames. apply NoDup_cons in Hnames as [Hfresh Hnames].
    unfold unit_ids. cbn [flat_map]. apply NoDup_app. split; [|split].
    + apply NoDup_fmap_2_strong; [|apply NoDup_seqZ].
      intros i j _ _ Heq. by apply unit_id_inj in Heq as [_ ?].
    + intros id (i & -> & _)%list_elem_of_fmap Hin.
      apply list_elem_of_In, in_flat_map in Hin as (other & Hother & Hin).
      apply list_elem_of_In, list_elem_of_fmap in Hin as (j & Heq & _).
      apply unit_id_inj in Heq as [Hname _].
      apply Hfresh. rewrite Hname. apply list_elem_of_fmap.
      exists other. split; [done|]. by apply list_elem_of_In.
    + by apply IH.
Qed.

End IndexSpecs.

(** X1. Panel specs with distinct names expand to panel units with
    distinct identifiers, and item specs with distinct names to item
    units with distinct identifiers. *)
Theorem unit_identifiers_distinct :
  (∀ panels,
     NoDup (PanelInput.name <$> panels) →
     NoDup (common.panel_id <$> _expand_panels panels))
  ∧ (∀ items panel,
       NoDup (ItemInput.name <$> items) →
       NoDup (common.item_id <$> _expand_items items panel)).
Proof.
  split.
  - intros panels Hnames. rewrite panel_unit_ids. by apply unit_ids_NoDup.
  - intros items panel Hnames. rewrite item_unit_ids. by apply unit_ids_NoDup.
Qed.

(** X2. The two indexes know exactly the units that expansion produces:
    an id is a key of the panel index if and only if it is the id of an
    expanded panel unit, and a key of the item index if and only if it
    is the id of an expanded item unit. *)
Theorem indexes_cover_expanded_units :
  (∀ panels id,
     is_Some (_create_panel_mapping panels !! id)
     ↔ id ∈ common.panel_id <$> _expand_panels panels)
  ∧ (∀ items panel id,
       is_Some (_create_item_mapping items panel !! id)
       ↔ id ∈ common.item_id <$> _expand_items items panel).
Proof.
  split.
  - intros panels id.
    rewrite _create_panel_mapping_index, index_specs_is_Some, panel_unit_ids.
    rewrite lookup_empty. split; [|auto]. by intros [[? ?]|?].
  - intros items panel id.
    rewrite _create_item_mapping_index, index_specs_is_Some, item_unit_ids.
    rewrite lookup_empty. split; [|auto]. by intros [[? ?]|?].
Qed.

(** X3. When several specs share a name, the last one wins in the
    index: every unit id of a spec that no later spec shares its name
    with maps to the metadata of that spec, in the panel index and in
    the item index alike. *)
Theorem index_last_spec_wins :
  (∀ before panel after i,
     PanelInput.name panel ∉ PanelInput.name <$> after →
     0 ≤ i < PanelInput.quantity panel →
     _create_panel_mapping (before ++ panel :: after)
       !! unit_id (PanelInput.name panel) i
     = Some {| PanelDetails.name := PanelInput.name panel;
               PanelDetails.width := PanelInput.width panel;
               PanelDetails.height := PanelInput.height panel;
               PanelDetails.grain := PanelInput.grain panel |})
  ∧ (∀ before item after reference i,
       ItemInput.name item ∉ ItemInput.name <$> after →
       0 ≤ i < ItemInput.quantity item →
       _create_item_mapping (before ++ item :: after) reference
         !! unit_id (ItemInput.name item) i
       = Some
           {| ItemDetails.name := ItemInput.name item;
              ItemDetails.width :=
                TransformedItem.width
                  (_transform_item_for_calculation item reference);
              ItemDetails.height :=
                TransformedItem.height
                  (_transform_item_for_calculation item reference);
              ItemDetails.original_width := ItemInput.width item;
              ItemDetails.original_height := ItemInput.height item;
              ItemDetails.can_rotate := ItemInput.isRotate item;
              ItemDetails.grain := ItemInput.grain item;
              ItemDetails.engraved_line := ItemInput.engraved_line item;
              ItemDetails.borders := ItemInput.borders item |}).
Proof.
  split.
  - intros before panel after i Hlast Hi.
    rewrite _create_panel_mapping_index.
    by rewrite (index_specs_lookup_last PanelInput.name PanelInput.quantity
                  panel_details_of).
  - intros before item after reference i Hlast Hi.
    rewrite _create_item_mapping_index.
    by rewrite (index_specs_lookup_last ItemInput.name ItemInput.quantity
                  (fun item => details_of item reference)).
Qed.

Lemma foldl_add_from {A : Type} (g : A → Z) (l : list A) (start : Z) :
  foldl (fun total x => total + g x) start l
  = start + foldl (fun total x => total + g x) 0 l.
Proof.
  revert start. induction l as [|x l IH]; intros start; simpl; [lia|].
  rewrite (IH (start + _)), (IH (0 + _)). lia.
Qed.

Lemma _expand_panels_length panels :
  len (_expand_panels panels)
  = foldl (fun total panel => total + Z.max 0 (PanelInput.quantity panel))
          0 panels.
Proof.
  rewrite _expand_panels_flat. unfold len.
  induction panels as [|panel panels IH]; [done|].
  cbn [flat_map foldl]. rewrite length_app, Nat2Z.inj_add, IH.
  rewrite length_fmap. unfold range. rewrite length_seqZ.
  rewrite (foldl_add_from _ panels (0 + _)). lia.
Qed.

(** X4. The total panel quantity that is compared with the ceiling never
    exceeds the number of panel units handed to the packing capability,
    and equals it when no panel quantity is negative. *)
Theorem total_counts_panel_units user_params :
  _get_total_panel_quantity user_params
    ≤ len (_expand_panels (UserParams.panels user_params))
  ∧ (Forall (fun panel => 0 ≤ PanelInput.quantity panel)
            (UserParams.panels user_params) →
     len (_expand_panels (UserParams.panels user_params))
     = _get_total_panel_quantity user_params).
Proof.
  rewrite _expand_panels_length. unfold _get_total_panel_quantity.
  induction (UserParams.panels user_params) as [|panel panels [Hle Heq]];
    cbn [foldl].
  - split; [lia|done].
  - rewrite (foldl_add_from PanelInput.quantity panels (0 + _)).
    rewrite (foldl_add_from (fun panel => Z.max 0 (PanelInput.quantity panel))
               panels (0 + _)).
    split; [lia|].
    intros [Hpos Hall]%Forall_cons. rewrite Heq by done. lia.
Qed.

(** ** What assembly puts into the panels *)

Lemma with_used_items_nil panel_data : with_used_items [] panel_data = panel_data.
Proof. destruct panel_data. unfold with_used_items. simpl. by rewrite app_nil_r. Qed.

Lemma with_unused_areas_nil panel_data :
  with_unused_areas [] panel_data = panel_data.
Proof.
  destruct panel_data. unfold with_unused_areas. simpl. by rewrite app_nil_r.
Qed.

Lemma with_used_items_cons shown enriched_item panel_data :
  with_used_items shown (append_used_item enriched_item panel_data)
  = with_used_items (enriched_item :: shown) panel_data.
Proof.
  unfold with_used_items, append_used_item. simpl. by rewrite <- app_assoc.
Qed.

Lemma with_unused_areas_cons areas area panel_data :
  with_unused_areas areas (append_unused_area area panel_data)
  = with_unused_areas (area :: areas) panel_data.
Proof.
  unfold with_unused_areas, append_unused_area. simpl. by rewrite <- app_assoc.
Qed.

(** [ensure_panel] succeeds exactly when the panel unit has an entry or
    is known, leaves the other entries alone and makes the entry of
    [panel_id] the ensured one. *)
Lemma ensure_panel_Ok panel_id panel_mapping
    (panels_dict panels_dict' : gmap string PanelOutput.t) :
  ensure_panel panel_id panel_mapping panels_dict = Ok panels_dict' →
  panels_dict' !! panel_id = ensured_panel panel_mapping panels_dict panel_id
  ∧ is_Some (panels_dict' !! panel_id)
  ∧ ∀ other, other ≠ panel_id → panels_dict' !! other = panels_dict !! other.
Proof.
  unfold ensure_panel, ensured_panel, _build_panel_structure.
  destruct (panels_dict !! panel_id) as [panel_data|] eqn:Hin.
  - intros [= <-]. rewrite Hin. eauto.
  - destruct (panel_mapping !! panel_id) as [details|]; [|done].
    simpl. intros [= <-]. rewrite lookup_insert_eq.
    split; [done|]. split; [eauto|].
    intros other Hne. by rewrite lookup_insert_ne.
Qed.

Lemma ensure_panel_Raise panel_id panel_mapping
    (panels_dict : gmap string PanelOutput.t) category message :
  ensure_panel panel_id panel_mapping panels_dict = Raise category message →
  panels_dict !! panel_id = None ∧ panel_mapping !! panel_id = None
  ∧ category = "KeyError" ∧ message = repr panel_id.
Proof.
  unfold ensure_panel, _build_panel_structure.
  destruct (panels_dict !! panel_id); [done|].
  destruct (panel_mapping !! panel_id); [done|].
  simpl. by intros [= <- <-].
Qed.

Lemma ensured_panel_other panel_mapping
    (panels_dict panels_dict' : gmap string PanelOutput.t) panel_id :
  panels_dict' !! panel_id = panels_dict !! panel_id →
  ensured_panel panel_mapping panels_dict' panel_id
  = ensured_panel panel_mapping panels_dict panel_id.
Proof. unfold ensured_panel. by intros ->. Qed.

Lemma process_used_contents used item_mapping panel_mapping panel
    (panels_dict panels_dict' : gmap string PanelOutput.t) panel_id panel_data :
  process_used used item_mapping panel_mapping panel panels_dict
    = Ok panels_dict' →
  panels_dict' !! panel_id = Some panel_data →
  ∃ before,
    ensured_panel panel_mapping panels_dict panel_id = Some before
    ∧ panel_data
      = with_used_items
          ((fun used_item =>
              _transform_used_item_for_display used_item item_mapping panel)
           <$> filter (fun used_item => common.used_panel used_item = panel_id)
                      used)
          before.
Proof.
  revert panels_dict.
  induction used as [|used_item used IH]; intros panels_dict; simpl.
  - intros [= <-] Hin. exists panel_data. unfold ensured_panel. rewrite Hin.
    by rewrite with_used_items_nil.
  - destruct (ensure_panel _ _ _) as [ensured|] eqn:Hensure; [|done].
    simpl. intros Hrest Hin.
    destruct (IH _ Hrest Hin) as (middle & Hmiddle & ->).
    apply ensure_panel_Ok in Hensure as (Hown & [own Hsome] & Hother).
    destruct (decide (common.used_panel used_item = panel_id)) as [<-|Hne].
    + rewrite filter_cons_True by done.
      unfold ensured_panel in Hmiddle.
      rewrite lookup_alter_eq, Hsome in Hmiddle. simpl in Hmiddle.
      injection Hmiddle as <-.
      exists own. split; [by rewrite <- Hown|].
      by rewrite fmap_cons, with_used_items_cons.
    + rewrite filter_cons_False by done.
      exists middle. split; [|done]. rewrite <- Hmiddle. symmetry.
      apply ensured_panel_other.
      rewrite lookup_alter_ne by done. apply Hother. done.
Qed.

Lemma process_unused_contents unused panel_mapping
    (panels_dict panels_dict' : gmap string PanelOutput.t) panel_id panel_data :
  process_unused unused panel_mapping panels_dict = Ok panels_dict' →
  panels_dict' !! panel_id = Some panel_data →
  ∃ before,
    ensured_panel panel_mapping panels_dict panel_id = Some before
    ∧ panel_data
      = with_unused_areas
          (area_of
           <$> filter (fun unused_area =>
                         common.unused_panel unused_area = panel_id) unused)
          before.
Proof.
  revert panels_dict.
  induction unused as [|unused_area unused IH]; intros panels_dict; simpl.
  - intros [= <-] Hin. exists panel_data. unfold ensured_panel. rewrite Hin.
    by rewrite with_unused_areas_nil.
  - destruct (ensure_panel _ _ _) as [ensured|] eqn:Hensure; [|done].
    simpl. intros Hrest Hin.
    destruct (IH _ Hrest Hin) as (middle & Hmiddle & ->).
    apply ensure_panel_Ok in Hensure as (Hown & [own Hsome] & Hother).
    destruct (decide (common.unused_panel unused_area = panel_id)) as [<-|Hne].
    + rewrite filter_cons_True by done.
      unfold ensured_panel in Hmiddle.
      rewrite lookup_alter_eq, Hsome in Hmiddle. simpl in Hmiddle.
      injection Hmiddle as <-.
      exists own. split; [by rewrite <- Hown|].
      by rewrite fmap_cons, with_unused_areas_cons.
    + rewrite filter_cons_False by done.
      exists middle. split; [|done]. rewrite <- Hmiddle. symmetry.
      apply ensured_panel_other.
      rewrite lookup_alter_ne by done. apply Hother. done.
Qed.

Lemma filter_absent {A : Type} (key : A → string) (l : list A) (k : string) :
  k ∉ key <$> l → filter (fun x => key x = k) l = [].
Proof.
  induction l as [|x l IH]; [done|]. rewrite fmap_cons.
  intros [Hne Hnot]%not_elem_of_cons.
  rewrite filter_cons_False by done. by apply IH.
Qed.

(** A successful assembly, taken apart: the panels of the response are
    the sorted values of a dict whose keys are the panel unit ids the
    raw result mentions, and the value of each key is the fresh entry of
    that panel unit with the placements and regions on it appended. *)
Lemma transform_result_Ok result user_params response :
  transform_result result user_params = Ok response →
  ∃ panel (panels_dict : gmap string PanelOutput.t),
    first_panel (UserParams.panels user_params) = Ok panel
    ∧ CalculationResponse.panels response
      = merge_sort panel_id_le (map_to_list panels_dict).*2
    ∧ dom panels_dict = list_to_set (mentioned_panels result)
    ∧ ∀ panel_id panel_data,
        panels_dict !! panel_id = Some panel_data →
        ∃ details,
          _create_panel_mapping (UserParams.panels user_params) !! panel_id
            = Some details
          ∧ panel_data
            = with_unused_areas (area_of <$> regions_on panel_id result)
                (with_used_items
                   ((fun used_item =>
                       _transform_used_item_for_display used_item
                         (_create_item_mapping (UserParams.items user_params)
                                               panel) panel)
                    <$> placements_on panel_id result)
                   (fresh_panel panel_id details)).
Proof.
  unfold transform_result.
  destruct (first_panel _) as [panel|]; [|done]. cbn [mbind fallible_bind].
  set (item_mapping := _create_item_mapping _ _).
  set (panel_mapping := _create_panel_mapping _).
  destruct (match common.used result with
            | Some used => process_used used item_mapping panel_mapping panel ∅
            | None => Ok ∅ end) as [with_used|] eqn:Hused; [|done].
  cbn [mbind fallible_bind].
  destruct (match common.unused result with
            | Some unused => process_unused unused panel_mapping with_used
            | None => Ok with_used end) as [panels_dict|] eqn:Hunused; [|done].
  cbn [mbind fallible_bind]. intros [= <-].
  assert (Hused' : process_used (default [] (common.used result)) item_mapping
                     panel_mapping panel ∅ = Ok with_used).
  { by destruct (common.used result). }
  assert (Hunused' : process_unused (default [] (common.unused result))
                       panel_mapping with_used = Ok panels_dict).
  { by destruct (common.unused result). }
  clear Hused Hunused.
  exists panel, panels_dict. split; [done|]. split; [done|].
  pose proof (process_used_dom _ _ _ _ _ _ Hused') as Hdom1.
  pose proof (process_unused_dom _ _ _ _ Hunused') as Hdom2.
  rewrite dom_empty_L, (left_id_L ∅ (∪)) in Hdom1.
  split.
  { unfold mentioned_panels. by rewrite list_to_set_app_L, Hdom2, Hdom1. }
  intros panel_id panel_data Hin.
  destruct (process_unused_contents _ _ _ _ _ _ Hunused' Hin)
    as (middle & Hmiddle & ->).
  unfold ensured_panel in Hmiddle.
  destruct (with_used !! panel_id) as [entry|] eqn:Hentry.
  - injection Hmiddle as <-.
    destruct (process_used_contents _ _ _ _ _ _ _ _ Hused' Hentry)
      as (start & Hstart & ->).
    unfold ensured_panel in Hstart. rewrite lookup_empty in Hstart.
    destruct (panel_mapping !! panel_id) as [details|]; [|done].
    injection Hstart as <-. by exists details.
  - destruct (panel_mapping !! panel_id) as [details|]; [|done].
    injection Hmiddle as <-. exists details. split; [done|].
    unfold placements_on. rewrite (filter_absent common.used_panel).
    + by rewrite fmap_nil, with_used_items_nil.
    + apply not_elem_of_dom in Hentry. rewrite Hdom1 in Hentry.
      by rewrite elem_of_list_to_set in Hentry.
Qed.

(** X5. In a successful response every panel holds the name, width and
    height of its panel unit, the placements of the raw result that lie
    on that unit, each shown through the display transform against the
    first panel spec, and the unused regions on that unit, both in the
    order of the raw result. *)
Theorem panels_hold_their_placements result user_params response panel
    panel_data :
  transform_result result user_params = Ok response →
  first_panel (UserParams.panels user_params) = Ok panel →
  panel_data ∈ CalculationResponse.panels response →
  ∃ details,
    _create_panel_mapping (UserParams.panels user_params)
      !! PanelOutput.panel_id panel_data = Some details
    ∧ PanelOutput.panel_name panel_data = PanelDetails.name details
    ∧ PanelOutput.width panel_data = PanelDetails.width details
    ∧ PanelOutput.height panel_data = PanelDetails.height details
    ∧ PanelOutput.used_items panel_data
      = (fun used_item =>
           _transform_used_item_for_display used_item
             (_create_item_mapping (UserParams.items user_params) panel) panel)
        <$> filter (fun used_item =>
                      common.used_panel used_item
                      = PanelOutput.panel_id panel_data)
                   (default [] (common.used result))
    ∧ PanelOutput.unused_areas panel_data
      = (fun unused_area =>
           {| UnusedArea.width := common.unused_width unused_area;
              UnusedArea.height := common.unused_height unused_area;
              UnusedArea.x := common.unused_x unused_area;
              UnusedArea.y := common.unused_y unused_area |})
        <$> filter (fun unused_area =>
                      common.unused_panel unused_area
                      = PanelOutput.panel_id panel_data)
                   (default [] (common.unused result)).
Proof.
  intros Hassembled Hpanel Hin.
  apply transform_result_Ok in Hassembled
    as (panel' & panels_dict & Hpanel' & Hpanels & _ & Hcontents).
  rewrite Hpanel in Hpanel'. injection Hpanel' as <-.
  rewrite Hpanels, merge_sort_Permutation in Hin.
  apply list_elem_of_fmap in Hin as ([panel_id entry] & Heq & Hentry).
  simpl in Heq. subst entry.
  apply elem_of_map_to_list in Hentry.
  destruct (Hcontents _ _ Hentry) as (details & Hdetails & ->).
  exists details. by repeat split.
Qed.

(** X6. The panels of a successful response are in ascending order of
    their panel unit id, no id occurs twice, and the ids are those the
    raw result mentions in its placements and unused regions. *)
Theorem panels_sorted_and_distinct result user_params response :
  transform_result result user_params = Ok response →
  Sorted (fun a b =>
            String.leb (PanelOutput.panel_id a) (PanelOutput.panel_id b)
            = true)
         (CalculationResponse.panels response)
  ∧ NoDup (PanelOutput.panel_id <$> CalculationResponse.panels response)
  ∧ ∀ id, id ∈ PanelOutput.panel_id <$> CalculationResponse.panels response
          ↔ id ∈ mentioned_panels result.
Proof.
  intros Hassembled.
  apply transform_result_Ok in Hassembled
    as (panel & panels_dict & _ & -> & Hdom & Hcontents).
  assert (Hids : PanelOutput.panel_id <$> (map_to_list panels_dict).*2
                 = (map_to_list panels_dict).*1).
  { rewrite <- list_fmap_compose. apply list_fmap_ext.
    intros i [panel_id entry] Hin. simpl.
    apply list_elem_of_lookup_2, elem_of_map_to_list in Hin.
    destruct (Hcontents _ _ Hin) as (details & _ & ->). done. }
  split; [|split].
  - assert (Htotal : Total panel_id_le).
    { intros a b. apply String.leb_total. }
    apply (Sorted_merge_sort panel_id_le).
  - rewrite merge_sort_Permutation, Hids. apply NoDup_fst_map_to_list.
  - intros id. rewrite merge_sort_Permutation, Hids.
    rewrite <- (elem_of_list_to_set (C := gset string) id
                  (mentioned_panels result)), <- Hdom.
    rewrite elem_of_dom. split.
    + intros ([k entry] & -> & Hin)%list_elem_of_fmap.
      apply elem_of_map_to_list in Hin. eauto.
    + intros [entry Hin]. apply list_elem_of_fmap.
      exists (id, entry). split; [done|]. by apply elem_of_map_to_list.
Qed.

(** ** When assembly fails *)

Lemma process_used_Raise used item_mapping panel_mapping panel
    (panels_dict : gmap string PanelOutput.t) category message :
  process_used used item_mapping panel_mapping panel panels_dict
    = Raise category message →
  category = "KeyError"
  ∧ ∃ id, id ∈ common.used_panel <$> used
          ∧ panel_mapping !! id = None
          ∧ message = repr id.
Proof.
  revert panels_dict.
  induction used as [|used_item used IH]; intros panels_dict; simpl; [done|].
  destruct (ensure_panel _ _ _) as [ensured|category' message'] eqn:Hensure.
  - simpl. intros Hrest. destruct (IH _ Hrest) as (-> & id & Hid & Hnone & ->).
    split; [done|]. exists id. split; [|done]. apply elem_of_cons. auto.
  - simpl. intros [= <- <-].
    apply ensure_panel_Raise in Hensure as (_ & Hnone & -> & ->).
    split; [done|]. exists (common.used_panel used_item).
    split; [|done]. apply elem_of_cons. auto.
Qed.

Lemma process_unused_Raise unused panel_mapping
    (panels_dict : gmap string PanelOutput.t) category message :
  process_unused unused panel_mapping panels_dict = Raise category message →
  category = "KeyError"
  ∧ ∃ id, id ∈ common.unused_panel <$> unused
          ∧ panel_mapping !! id = None
          ∧ message = repr id.
Proof.
  revert panels_dict.
  induction unused as [|unused_area unused IH]; intros panels_dict; simpl;
    [done|].
  destruct (ensure_panel _ _ _) as [ensured|category' message'] eqn:Hensure.
  - simpl. intros Hrest. destruct (IH _ Hrest) as (-> & id & Hid & Hnone & ->).
    split; [done|]. exists id. split; [|done]. apply elem_of_cons. auto.
  - simpl. intros [= <- <-].
    apply ensure_panel_Raise in Hensure as (_ & Hnone & -> & ->).
    split; [done|]. exists (common.unused_panel unused_area).
    split; [|done]. apply elem_of_cons. auto.
Qed.

(** The two ways in which [transform_result] raises. *)
Lemma transform_result_Raise result user_params category message :
  transform_result result user_params = Raise category message →
  (UserParams.panels user_params = []
   ∧ category = "IndexError" ∧ message = "list index out of range")
  ∨ (category = "KeyError"
     ∧ ∃ id, id ∈ mentioned_panels result
             ∧ _create_panel_mapping (UserParams.panels user_params) !! id
               = None
             ∧ message = repr id).
Proof.
  unfold transform_result.
  destruct (first_panel (UserParams.panels user_params))
    as [panel|category' message'] eqn:Hfirst; cbn [mbind fallible_bind].
  2: { intros [= <- <-]. left.
       destruct (UserParams.panels user_params); [|done].
       simpl in Hfirst. by injection Hfirst as <- <-. }
  set (item_mapping := _create_item_mapping _ _).
  set (panel_mapping := _create_panel_mapping _).
  intros Hraise. right.
  destruct (match common.used result with
            | Some used => process_used used item_mapping panel_mapping panel ∅
            | None => Ok ∅ end) as [with_used|category' message'] eqn:Hused.
  - cbn [mbind fallible_bind] in Hraise.
    destruct (match common.unused result with
              | Some unused => process_unused unused panel_mapping with_used
              | None => Ok with_used end)
      as [panels_dict|category' message'] eqn:Hunused; [done|].
    cbn [mbind fallible_bind] in Hraise. injection Hraise as <- <-.
    destruct (common.unused result) as [unused|] eqn:Hlist; [|done].
    apply process_unused_Raise in Hunused as (-> & id & Hid & Hnone & ->).
    split; [done|]. exists id. split; [|done].
    unfold mentioned_panels. rewrite Hlist. apply elem_of_app. auto.
  - cbn [mbind fallible_bind] in Hraise. injection Hraise as <- <-.
    destruct (common.used result) as [used|] eqn:Hlist; [|done].
    apply process_used_Raise in Hused as (-> & id & Hid & Hnone & ->).
    split; [done|]. exists id. split; [|done].
    unfold mentioned_panels. rewrite Hlist. apply elem_of_app. auto.
Qed.

Lemma transform_result_Ok_known result user_params response id :
  transform_result result user_params = Ok response →
  id ∈ mentioned_panels result →
  is_Some (_create_panel_mapping (UserParams.panels user_params) !! id).
Proof.
  intros Hassembled Hid.
  apply transform_result_Ok in Hassembled
    as (panel & panels_dict & _ & _ & Hdom & Hcontents).
  apply (elem_of_list_to_set (C := gset string)) in Hid.
  rewrite <- Hdom in Hid. apply elem_of_dom in Hid as [entry Hentry].
  destruct (Hcontents _ _ Hentry) as (details & Hdetails & _). eauto.
Qed.

Lemma transform_result_Ok_fields result user_params response :
  transform_result result user_params = Ok response →
  CalculationResponse.success response = true
  ∧ CalculationResponse.error response = None
  ∧ CalculationResponse.calculation_time response = None
  ∧ CalculationResponse.cuts response = default [] (common.cuts result).
Proof.
  unfold transform_result.
  destruct (first_panel _) as [panel|]; [|done]. cbn [mbind fallible_bind].
  destruct (match common.used result with Some _ => _ | None => _ end)
    as [with_used|]; [|done].
  cbn [mbind fallible_bind].
  destruct (match common.unused result with Some _ => _ | None => _ end)
    as [panels_dict|]; [|done].
  cbn [mbind fallible_bind]. by intros [= <-].
Qed.

Lemma panel_index_known panels id :
  is_Some (_create_panel_mapping panels !! id)
  ↔ id ∈ common.panel_id <$> _expand_panels panels.
Proof.
  rewrite _create_panel_mapping_index, index_specs_is_Some, panel_unit_ids.
  rewrite lookup_empty. split; [|auto]. by intros [[? ?]|?].
Qed.

(** X7. For a request with at least one panel spec, assembly succeeds
    if and only if every panel unit id that the raw result mentions, in
    a placement or in an unused region, is the id of a panel unit that
    expansion produces for the request. *)
Theorem assembly_succeeds_iff_panels_known result user_params :
  UserParams.panels user_params ≠ [] →
  (∃ response, transform_result result user_params = Ok response)
  ↔ ∀ id, id ∈ mentioned_panels result →
          id ∈ common.panel_id <$> _expand_panels (UserParams.panels user_params).
Proof.
  intros Hpanels. split.
  - intros [response Hassembled] id Hid.
    apply panel_index_known. by eapply transform_result_Ok_known.
  - intros Hall.
    destruct (transform_result result user_params)
      as [response|category message] eqn:Hassembled; [eauto|].
    apply transform_result_Raise in Hassembled
      as [[Hnil _]|(_ & id & Hid & Hnone & _)]; [done|].
    apply Hall, panel_index_known in Hid. rewrite Hnone in Hid.
    by destruct Hid.
Qed.

(** X8. Assembly raises in two ways only: an [IndexError] when the
    request has no panel spec, and otherwise a [KeyError] whose message
    is the [repr] of the id of a panel unit that the raw result mentions
    and that expansion does not produce for the request. The ids the
    raw result mentions are taken to be ASCII text, on which [repr] is
    exactly Python's. *)
Theorem assembly_failure_names_unknown_panel result user_params category
    message :
  Forall (fun id => ascii_only id = true) (mentioned_panels result) →
  transform_result result user_params = Raise category message →
  (UserParams.panels user_params = []
   ∧ category = "IndexError" ∧ message = "list index out of range")
  ∨ (category = "KeyError"
     ∧ ∃ id, id ∈ mentioned_panels result
             ∧ ¬ (id ∈ common.panel_id
                         <$> _expand_panels (UserParams.panels user_params))
             ∧ message = repr id).
Proof.
  intros _ Hraise.
  apply transform_result_Raise in Hraise
    as [?|(-> & id & Hid & Hnone & ->)]; [by left|right].
  split; [done|]. exists id. split; [done|]. split; [|done].
  intros Hin. apply panel_index_known in Hin as [details Hsome].
  by rewrite Hnone in Hsome.
Qed.

(** ** Runs of the retry loop *)

Lemma increment_iter (user_params : UserParams.t) (k : nat) :
  Nat.iter k (fun current => _increment_panel_quantities current 1) user_params
  = {| UserParams.cut_width := UserParams.cut_width user_params;
       UserParams.min_initial_usage :=
         UserParams.min_initial_usage user_params;
       UserParams.panels :=
         add_quantity (Z.of_nat k) <$> UserParams.panels user_params;
       UserParams.items := UserParams.items user_params |}.
Proof.
  induction k as [|k IH].
  - destruct user_params as [cut_width flag panels items]. simpl. f_equal.
    induction panels as [|[name width height quantity grain] panels IH];
      [done|].
    rewrite fmap_cons, <- IH. unfold add_quantity. simpl.
    by rewrite Z.add_0_r.
  - rewrite Nat.iter_succ, IH. unfold _increment_panel_quantities at 1.
    cbn [UserParams.cut_width UserParams.min_initial_usage UserParams.panels
         UserParams.items].
    f_equal. rewrite (foldl_append (add_quantity 1)), app_nil_l.
    rewrite <- list_fmap_compose. apply list_fmap_ext.
    intros _ panel _. unfold add_quantity. simpl. f_equal. lia.
Qed.

Section RunProperties.

Variable opcut_calculate : common.Method → common.Params → common.Outcome.
Variable time_time : nat → float.

(** The [k]-th attempt of a run is the [k]-fold increment of the
    request the loop was entered with. *)
Lemma retry_loop_kth fuel opcut_method start_time clock user_params response
    attempts k current :
  retry_loop opcut_calculate time_time fuel opcut_method start_time clock
             user_params = Some (response, attempts) →
  attempts !! k = Some current →
  current
  = Nat.iter k (fun current => _increment_panel_quantities current 1)
             user_params.
Proof.
  intros Hloop.
  destruct (retry_loop_attempts _ _ _ _ _ _ _ _ _ Hloop) as [Hhead Hnext].
  revert current. induction k as [|k IH]; intros current Hk.
  - rewrite <- head_lookup, Hhead in Hk. by injection Hk as <-.
  - destruct (attempts !! k) as [previous|] eqn:Hprevious.
    + destruct (Hnext k previous current Hprevious Hk) as (-> & _ & _).
      by rewrite Nat.iter_succ, <- (IH previous).
    + apply lookup_ge_None in Hprevious.
      apply lookup_lt_Some in Hk. lia.
Qed.

(** X9. Along the attempts of one run the [k]-th attempt (counting
    from 0) is the submitted request with [k] added to every panel
    quantity; its total is the first total plus [k] times the number of
    panel specs, every attempt but the last has a total below 50, and
    the run makes at least one and at most [1 + max 0 (50 - total)]
    attempts. *)
Theorem attempts_progress fuel opcut_method start_time clock user_params
    response attempts :
  retry_loop opcut_calculate time_time fuel opcut_method start_time clock
             user_params = Some (response, attempts) →
  (∀ k current,
     attempts !! k = Some current →
     UserParams.cut_width current = UserParams.cut_width user_params
     ∧ UserParams.min_initial_usage current
       = UserParams.min_initial_usage user_params
     ∧ UserParams.items current = UserParams.items user_params
     ∧ UserParams.panels current
       = (fun panel =>
            {| PanelInput.name := PanelInput.name panel;
               PanelInput.width := PanelInput.width panel;
               PanelInput.height := PanelInput.height panel;
               PanelInput.quantity := PanelInput.quantity panel + Z.of_nat k;
               PanelInput.grain := PanelInput.grain panel |})
         <$> UserParams.panels user_params
     ∧ _get_total_panel_quantity current
       = _get_total_panel_quantity user_params
         + Z.of_nat k * len (UserParams.panels user_params)
     ∧ ((S k < length attempts)%nat →
        _get_total_panel_quantity current < 50))
  ∧ 1 ≤ len attempts
        ≤ 1 + Z.max 0 (50 - _get_total_panel_quantity user_params).
Proof.
  intros Hloop.
  destruct (retry_loop_attempts _ _ _ _ _ _ _ _ _ Hloop) as [Hhead Hnext].
  assert (Hkth : ∀ k current, attempts !! k = Some current →
    current = {| UserParams.cut_width := UserParams.cut_width user_params;
                 UserParams.min_initial_usage :=
                   UserParams.min_initial_usage user_params;
                 UserParams.panels :=
                   add_quantity (Z.of_nat k) <$> UserParams.panels user_params;
                 UserParams.items := UserParams.items user_params |}
    ∧ _get_total_panel_quantity current
      = _get_total_panel_quantity user_params
        + Z.of_nat k * len (UserParams.panels user_params)
    ∧ ((S k < length attempts)%nat →
       _get_total_panel_quantity current < 50
       ∧ UserParams.panels user_params ≠ [])).
  { intros k current Hk.
    pose proof (retry_loop_kth _ _ _ _ _ _ _ _ _ Hloop Hk) as Hiter.
    rewrite increment_iter in Hiter. split; [done|]. split.
    - rewrite Hiter. unfold _get_total_panel_quantity.
      cbn [UserParams.panels]. apply total_add_quantity.
    - intros Hlater. apply lookup_lt_is_Some_2 in Hlater as [next Hnext'].
      destruct (Hnext k current next Hk Hnext') as (_ & Hlow & Hpanels).
      split; [done|]. rewrite Hiter in Hpanels. cbn [UserParams.panels] in Hpanels.
      intros Hnil. by rewrite Hnil in Hpanels. }
  split.
  - intros k current Hk. destruct (Hkth k current Hk) as (-> & Htotal & Hlow).
    cbn [UserParams.cut_width UserParams.min_initial_usage UserParams.items
         UserParams.panels] in *.
    repeat (split; [done|]). intros Hlater. by apply Hlow.
  - destruct attempts as [|first attempts]; [done|].
    unfold len. cbn [length]. split; [lia|].
    destruct attempts as [|second attempts]; [cbn [length]; lia|].
    destruct (lookup_lt_is_Some_2 (first :: second :: attempts)
                (length attempts)) as [current Hcurrent];
      [cbn [length]; lia|].
    destruct (Hkth _ _ Hcurrent) as (_ & Htotal & Hlow).
    destruct Hlow as [Hlow Hpanels]; [cbn [length]; lia|].
    rewrite Htotal in Hlow. cbn [length].
    assert (1 ≤ len (UserParams.panels user_params)).
    { unfold len. destruct (UserParams.panels user_params); [done|].
      cbn [length]. lia. }
    nia.
Qed.

(** X10. Whatever the packing capability does, a response of the retry
    loop carries an elapsed time; a successful one has no error
    message, and a failed one has an error message and neither panels
    nor cuts nor summary counts. *)
Theorem response_shape fuel opcut_method start_time clock user_params
    response attempts :
  retry_loop opcut_calculate time_time fuel opcut_method start_time clock
             user_params = Some (response, attempts) →
  is_Some (CalculationResponse.calculation_time response)
  ∧ (CalculationResponse.success response = true →
     CalculationResponse.error response = None)
  ∧ (CalculationResponse.success response = false →
     is_Some (CalculationResponse.error response)
     ∧ CalculationResponse.panels response = []
     ∧ CalculationResponse.cuts response = []
     ∧ CalculationResponse.summary response = ∅).
Proof.
  revert clock user_params response attempts.
  induction fuel as [|fuel IH]; intros clock user_params response attempts;
    [done|].
  simpl.
  destruct (attempt opcut_calculate time_time _ _ _ _)
    as [[returned|next] clock'] eqn:Hstep.
  - intros [= <- <-]. unfold attempt in Hstep.
    destruct (first_panel _) as [panel|];
      [|injection Hstep as <- _; simpl; by eauto].
    destruct (opcut_calculate _ _) as [result_json| |].
    + destruct (transform_result _ _) as [assembled|] eqn:Hassembled;
        [|injection Hstep as <- _; simpl; by eauto].
      injection Hstep as <- _.
      apply transform_result_Ok_fields in Hassembled as (Hsuccess & Herror & _).
      cbn [CalculationResponse.calculation_time CalculationResponse.success
           CalculationResponse.error].
      split; [eauto|]. split; [done|]. intros Hfailed. congruence.
    + case_decide; [done|]. injection Hstep as <- _. simpl. by eauto.
    + injection Hstep as <- _. simpl. by eauto.
  - destruct (retry_loop opcut_calculate time_time fuel _ _ _ _)
      as [[response' attempts']|] eqn:Hloop; [|done].
    simpl. intros [= <- <-]. by apply (IH _ _ _ _ Hloop).
Qed.


(** X11. When the packing capability returns a result that mentions a
    panel unit which expansion does not produce for the request, the
    attempt is not retried: the loop returns a failure response whose
    error is [KeyError: ] followed by the [repr] of the id of such a
    unit, with the elapsed time of a second reading of the clock. The
    ids the result mentions are taken to be ASCII text, on which [repr]
    is exactly Python's. *)
Theorem assembly_error_is_reported fuel opcut_method start_time clock
    user_params panel result_json unknown :
  Forall (fun id => ascii_only id = true) (mentioned_panels result_json) →
  first_panel (UserParams.panels user_params) = Ok panel →
  opcut_calculate opcut_method (opcut_params user_params panel)
    = common.Solved result_json →
  unknown ∈ mentioned_panels result_json →
  ¬ (unknown ∈ common.panel_id
                 <$> _expand_panels (UserParams.panels user_params)) →
  ∃ id,
    id ∈ mentioned_panels result_json
    ∧ ¬ (id ∈ common.panel_id
                <$> _expand_panels (UserParams.panels user_params))
    ∧ retry_loop opcut_calculate time_time (S fuel) opcut_method start_time
                 clock user_params
      = Some ({| CalculationResponse.success := false;
                 CalculationResponse.panels := [];
                 CalculationResponse.cuts := [];
                 CalculationResponse.summary := ∅;
                 CalculationResponse.error :=
                   Some ("KeyError: " +:+ repr id);
                 CalculationResponse.calculation_time :=
                   Some (time_time (S clock) - start_time)%Q |},
              [user_params]).
Proof.
  intros _ Hpanel Hcall Hmentioned Hunknown.
  destruct (transform_result result_json user_params)
    as [response|category message] eqn:Hassembled.
  { destruct Hunknown. apply panel_index_known.
    by eapply transform_result_Ok_known. }
  pose proof Hassembled as Hraise.
  apply transform_result_Raise in Hraise
    as [(Hnil & _)|(-> & id & Hid & Hnone & ->)].
  { apply first_panel_Ok in Hpanel. done. }
  exists id. split; [done|]. split.
  { intros Hin. apply panel_index_known in Hin as [details Hsome].
    by rewrite Hnone in Hsome. }
  simpl. unfold attempt. by rewrite Hpanel, Hcall, Hassembled.
Qed.

(** X12. A request without panel specs never reaches the packing
    capability. [calculate] returns the failure [IndexError: list index
    out of range] with the elapsed time after one attempt; the entry
    point returns the failure [API Error: list index out of range]
    without elapsed time and without any attempt, also when the method
    is unknown. *)
Theorem empty_panel_list_responses fuel clock user_params method opcut_method :
  UserParams.panels user_params = [] →
  (method_map method = Some opcut_method →
   calculate opcut_calculate time_time (S fuel) clock user_params method
   = Some (Ok {| CalculationResponse.success := false;
                 CalculationResponse.panels := [];
                 CalculationResponse.cuts := [];
                 CalculationResponse.summary := ∅;
                 CalculationResponse.error :=
                   Some "IndexError: list index out of range";
                 CalculationResponse.calculation_time :=
                   Some (time_time (S clock) - time_time clock)%Q |},
           [user_params]))
  ∧ calculate_optimization opcut_calculate time_time fuel clock user_params
      method
    = Some ({| CalculationResponse.success := false;
               CalculationResponse.panels := [];
               CalculationResponse.cuts := [];
               CalculationResponse.summary := ∅;
               CalculationResponse.error :=
                 Some "API Error: list index out of range";
               CalculationResponse.calculation_time := None |},
            user_params, []).
Proof.
  intros Hnil. split.
  - intros Hmethod. unfold calculate. rewrite Hmethod. simpl.
    unfold attempt. by rewrite Hnil.
  - unfold calculate_optimization. by rewrite Hnil.
Qed.

(** X13. A method name other than the four known ones is rejected
    before any attempt: [calculate] raises [ValueError] with the message
    [Unknown method: ] followed by the name, and for a request with at
    least one panel spec the entry point turns this into a failure
    response with the error [API Error: Unknown method: ] followed by
    the name, without elapsed time. *)
Theorem unknown_method_responses fuel clock user_params method :
  method ∉ ["greedy"; "forward_greedy"; "greedy_native";
            "forward_greedy_native"] →
  calculate opcut_calculate time_time fuel clock user_params method
  = Some (Raise "ValueError" ("Unknown method: " +:+ method), [])
  ∧ (UserParams.panels user_params ≠ [] →
     ∃ after,
       calculate_optimization opcut_calculate time_time fuel clock user_params
         method
       = Some ({| CalculationResponse.success := false;
                  CalculationResponse.panels := [];
                  CalculationResponse.cuts := [];
                  CalculationResponse.summary := ∅;
                  CalculationResponse.error :=
                    Some ("API Error: Unknown method: " +:+ method);
                  CalculationResponse.calculation_time := None |},
               after, [])).
Proof.
  intros Hunknown.
  assert (Hmap : method_map method = None).
  { unfold method_map. repeat case_decide; try done; subst;
      destruct Hunknown; repeat constructor. }
  assert (Hcalculate : ∀ current,
    calculate opcut_calculate time_time fuel clock current method
    = Some (Raise "ValueError" ("Unknown method: " +:+ method), [])).
  { intros current. unfold calculate. by rewrite Hmap. }
  split; [apply Hcalculate|].
  intros Hpanels. unfold calculate_optimization.
  destruct (UserParams.panels user_params) as [|panel others]; [done|].
  rewrite Hcalculate. simpl. eauto.
Qed.

(** X14. The entry point answers every request: for every request and
    method name there is an amount of fuel with which it returns a
    response, whatever the packing capability and the clock do. *)
Theorem entry_point_always_responds clock user_params method :
  ∃ fuel response after attempts,
    calculate_optimization opcut_calculate time_time fuel clock user_params
      method
    = Some (response, after, attempts).
Proof.
  unfold calculate_optimization.
  destruct (UserParams.panels user_params) as [|panel others].
  { exists 0%nat. eauto. }
  set (current := {| UserParams.cut_width := _ |}).
  unfold calculate.
  destruct (method_map method) as [opcut_method|].
  - exists (S (Z.to_nat (50 - _get_total_panel_quantity current))).
    destruct (retry_loop_terminates opcut_calculate time_time
                (S (Z.to_nat (50 - _get_total_panel_quantity current)))
                opcut_method (time_time clock) (S clock) current)
      as [[response attempts] Hloop]; [lia|].
    rewrite Hloop. simpl. eauto.
  - exists 0%nat. simpl. eauto.
Qed.


(** X16. The loop goes round on infeasibility below the ceiling and on
    nothing else: in every run the packing capability reported
    infeasibility for each attempt but the last, each with a total
    below 50, and the response is what the body of the loop returns for
    the last attempt, entered after one clock reading per earlier
    attempt. *)
Theorem run_decomposition fuel opcut_method start_time clock user_params
    response attempts :
  retry_loop opcut_calculate time_time fuel opcut_method start_time clock
             user_params = Some (response, attempts) →
  ∃ earlier last,
    attempts = earlier ++ [last]
    ∧ (∀ current, current ∈ earlier →
         _get_total_panel_quantity current < 50
         ∧ ∃ panel message,
             first_panel (UserParams.panels current) = Ok panel
             ∧ opcut_calculate opcut_method (opcut_params current panel)
               = common.UnresolvableError message)
    ∧ (attempt opcut_calculate time_time opcut_method start_time
               (clock + length earlier) last).1
      = Return response.
Proof.
  revert clock user_params response attempts.
  induction fuel as [|fuel IH]; intros clock user_params response attempts;
    [done|].
  simpl.
  destruct (attempt opcut_calculate time_time _ _ _ _)
    as [[returned|next] clock'] eqn:Hstep.
  - intros [= <- <-]. exists [], user_params. split; [done|].
    split; [by intros current Hin%elem_of_nil|].
    cbn [length]. by rewrite Nat.add_0_r, Hstep.
  - destruct (retry_loop opcut_calculate time_time fuel _ _ _ _)
      as [[response' attempts']|] eqn:Hloop; [|done].
    simpl. intros [= <- <-].
    pose proof Hstep as Hretry.
    apply attempt_Retry in Hretry as (-> & Hlow & panel & message & Hpanel & Hcall).
    assert (clock' = S clock) as ->.
    { rewrite (attempt_infeasible _ _ _ _ _ _ _ _ Hpanel Hcall) in Hstep.
      rewrite decide_True in Hstep by done. by injection Hstep as <-. }
    destruct (IH _ _ _ _ Hloop) as (earlier & last & -> & Hearlier & Hlast).
    exists (user_params :: earlier), last. split; [done|]. split.
    + intros current [->|Hin]%elem_of_cons; [eauto|by apply Hearlier].
    + cbn [length]. by rewrite Nat.add_succ_r.
Qed.

End RunProperties.

(** X15. A retry hands the packing capability the same item units and
    the same cut width and flag as the attempt before it, and every
    panel unit of that attempt again. *)
Theorem retry_keeps_units user_params panel :
  first_panel (UserParams.panels user_params) = Ok panel →
  ∃ panel',
    first_panel
      (UserParams.panels (_increment_panel_quantities user_params 1))
    = Ok panel'
    ∧ common.items
        (opcut_params (_increment_panel_quantities user_params 1) panel')
      = common.items (opcut_params user_params panel)
    ∧ common.cut_width
        (opcut_params (_increment_panel_quantities user_params 1) panel')
      = common.cut_width (opcut_params user_params panel)
    ∧ common.min_initial_usage
        (opcut_params (_increment_panel_quantities user_params 1) panel')
      = common.min_initial_usage (opcut_params user_params panel)
    ∧ ∀ unit,
        unit ∈ common.panels (opcut_params user_params panel) →
        unit ∈ common.panels
                 (opcut_params (_increment_panel_quantities user_params 1)
                               panel').
Proof.
  intros Hpanel. exists (add_quantity 1 panel).
  unfold opcut_params.
  cbn [common.items common.cut_width common.min_initial_usage common.panels].
  rewrite increment_panels.
  split; [|split; [|split; [done|split; [done|]]]].
  - destruct (UserParams.panels user_params) as [|first others]; [done|].
    simpl in Hpanel. by injection Hpanel as ->.
  - cbn [_increment_panel_quantities UserParams.items].
    rewrite !_expand_items_flat. apply flat_map_ext. intros item.
    apply list_fmap_ext. intros _ i _.
    unfold _transform_item_for_calculation, add_quantity.
    cbn [PanelInput.grain]. done.
  - intros unit. rewrite !_expand_panels_flat.
    intros Hin. apply list_elem_of_In, in_flat_map in Hin
      as (spec & Hspec & Hin).
    apply list_elem_of_In, list_elem_of_fmap in Hin as (i & -> & Hi).
    apply list_elem_of_In, in_flat_map.
    exists (add_quantity 1 spec). split.
    + apply list_elem_of_In, list_elem_of_fmap. exists spec.
      split; [done|]. by apply list_elem_of_In.
    + apply list_elem_of_In, list_elem_of_fmap. exists i. split; [done|].
      unfold range in *. apply elem_of_seqZ in Hi. apply elem_of_seqZ.
      unfold add_quantity. cbn [PanelInput.quantity]. lia.
Qed.

(** ** The further properties on concrete requests *)

Example two_sheet_assembly :
  transform_result two_sheet_result (request [sheet 2] [door; shelf])
  = Ok two_sheet_response.
Proof. vm_compute. reflexivity. Qed.

(** An unknown panel unit whose id holds an apostrophe is reported
    between double quotes. *)
Example apostrophe_assembly :
  transform_result
    {| common.used := Some [placement "o'brien_1" "door_1"];
       common.unused := Some []; common.cuts := None |}
    (request [sheet 1] [door])
  = Raise "KeyError"
      (String double_quote ("o'brien_1" +:+ String double_quote "")).
Proof. vm_compute. reflexivity. Qed.

Example stray_assembly :
  transform_result stray_result (request [sheet 1] [door])
  = Raise "KeyError" "'plank_1'".
Proof. vm_compute. reflexivity. Qed.

(** Two sheets and an offcut have five distinct unit ids. *)
Lemma unit_identifiers_distinct_witness :
  NoDup (PanelInput.name <$> [sheet 2; offcut])
  ∧ NoDup (common.panel_id <$> _expand_panels [sheet 2; offcut]).
Proof.
  assert (Hnames : NoDup (PanelInput.name <$> [sheet 2; offcut])).
  { apply (bool_decide_unpack _). vm_compute. exact I. }
  split; [exact Hnames|].
  exact (proj1 unit_identifiers_distinct [sheet 2; offcut] Hnames).
Defined.

(** Of two item specs named [door] the index keeps the second. *)
Lemma index_last_spec_wins_witness :
  ItemDetails.width
    <$> _create_item_mapping ([door] ++ wide_door :: []) (sheet 1)
          !! unit_id (ItemInput.name wide_door) 0
  = Some 700%Q.
Proof.
  rewrite (proj2 index_last_spec_wins [door] wide_door [] (sheet 1) 0).
  - reflexivity.
  - apply not_elem_of_nil.
  - split; [reflexivity|reflexivity].
Defined.

Lemma total_counts_panel_units_witness :
  len (_expand_panels (UserParams.panels (request [sheet 2; offcut] [door])))
  = _get_total_panel_quantity (request [sheet 2; offcut] [door]).
Proof.
  apply (proj2 (total_counts_panel_units (request [sheet 2; offcut] [door]))).
  repeat constructor; discriminate.
Defined.

Lemma panels_hold_their_placements_witness :
  ∃ details,
    _create_panel_mapping [sheet 2] !! "sheet_1" = Some details
    ∧ PanelOutput.panel_name first_sheet_output = PanelDetails.name details
    ∧ PanelOutput.used_items first_sheet_output
      = (fun used_item =>
           _transform_used_item_for_display used_item
             (_create_item_mapping [door; shelf] (sheet 2)) (sheet 2))
        <$> [placement "sheet_1" "door_1"].
Proof.
  destruct (panels_hold_their_placements two_sheet_result
              (request [sheet 2] [door; shelf]) two_sheet_response (sheet 2)
              first_sheet_output)
    as (details & Hdetails & Hname & _ & _ & Hused & _).
  - vm_compute. reflexivity.
  - reflexivity.
  - apply list_elem_of_here.
  - exists details. split; [exact Hdetails|]. split; [exact Hname|].
    exact Hused.
Defined.

Lemma panels_sorted_and_distinct_witness :
  NoDup (PanelOutput.panel_id <$> CalculationResponse.panels two_sheet_response).
Proof.
  apply (panels_sorted_and_distinct two_sheet_result
           (request [sheet 2] [door; shelf]) two_sheet_response).
  vm_compute. reflexivity.
Defined.

Lemma assembly_succeeds_iff_panels_known_witness :
  (∃ response,
     transform_result stray_result (request [sheet 1] [door]) = Ok response)
  ↔ ∀ id, id ∈ mentioned_panels stray_result →
          id ∈ common.panel_id
                 <$> _expand_panels (UserParams.panels (request [sheet 1] [door])).
Proof.
  apply (assembly_succeeds_iff_panels_known stray_result
           (request [sheet 1] [door])).
  discriminate.
Defined.

Lemma assembly_failure_names_unknown_panel_witness :
  (UserParams.panels (request [sheet 1] [door]) = []
   ∧ "KeyError" = "IndexError" ∧ "'plank_1'" = "list index out of range")
  ∨ ("KeyError" = "KeyError"
     ∧ ∃ id, id ∈ mentioned_panels stray_result
             ∧ ¬ (id ∈ common.panel_id
                         <$> _expand_panels
                               (UserParams.panels (request [sheet 1] [door])))
             ∧ "'plank_1'" = repr id).
Proof.
  apply (assembly_failure_names_unknown_panel stray_result
           (request [sheet 1] [door]) "KeyError" "'plank_1'").
  - repeat constructor.
  - vm_compute. reflexivity.
Defined.

Lemma attempts_progress_witness :
  _get_total_panel_quantity (request [sheet 49] [door])
  = _get_total_panel_quantity (request [sheet 48] [door])
    + Z.of_nat 1 * len (UserParams.panels (request [sheet 48] [door])).
Proof.
  destruct (attempts_progress always_infeasible ticking_clock 3 common.GREEDY
              0%Q 0%nat (request [sheet 48] [door])
              (failure_response (unresolvable_message 50) (Some 2%Q))
              last_three_attempts ltac:(vm_compute; reflexivity))
    as [Hkth _].
  destruct (Hkth 1%nat (request [sheet 49] [door]) eq_refl)
    as (_ & _ & _ & _ & Htotal & _).
  exact Htotal.
Defined.

Lemma response_shape_witness :
  is_Some (CalculationResponse.calculation_time
             (failure_response (unresolvable_message 50) (Some 2%Q))).
Proof.
  apply (response_shape always_infeasible ticking_clock 3 common.GREEDY
           0%Q 0%nat (request [sheet 48] [door])
           (failure_response (unresolvable_message 50) (Some 2%Q))
           last_three_attempts).
  vm_compute. reflexivity.
Defined.

Lemma assembly_error_is_reported_witness :
  ∃ id,
    retry_loop (always_solves stray_result) ticking_clock 1 common.GREEDY
               0%Q 0 (request [sheet 1] [door])
    = Some (failure_response ("KeyError: " +:+ repr id)
              (Some (ticking_clock 1 - 0)%Q),
            [request [sheet 1] [door]]).
Proof.
  destruct (assembly_error_is_reported (always_solves stray_result)
              ticking_clock 0 common.GREEDY 0%Q 0%nat
              (request [sheet 1] [door]) (sheet 1) stray_result "plank_1")
    as (id & _ & _ & Hloop).
  - repeat constructor.
  - reflexivity.
  - reflexivity.
  - apply list_elem_of_here.
  - intros Hin. apply list_elem_of_singleton in Hin. discriminate Hin.
  - exists id. exact Hloop.
Defined.

Lemma empty_panel_list_responses_witness :
  calculate_optimization always_infeasible ticking_clock 0 0
    (request [] [door]) "greedy"
  = Some (failure_response "API Error: list index out of range" None,
          request [] [door], []).
Proof.
  apply (empty_panel_list_responses always_infeasible ticking_clock 0 0
           (request [] [door]) "greedy" common.GREEDY).
  reflexivity.
Defined.

Lemma unknown_method_responses_witness :
  calculate always_infeasible ticking_clock 0 0 (request [sheet 1] [door])
    "simplex"
  = Some (Raise "ValueError" "Unknown method: simplex", []).
Proof.
  apply (unknown_method_responses always_infeasible ticking_clock 0 0
           (request [sheet 1] [door]) "simplex").
  apply (bool_decide_unpack _). vm_compute. exact I.
Defined.

Lemma retry_keeps_units_witness :
  ∃ panel',
    first_panel
      (UserParams.panels
         (_increment_panel_quantities (request [sheet 1; offcut] [door]) 1))
    = Ok panel'
    ∧ common.items
        (opcut_params
           (_increment_panel_quantities (request [sheet 1; offcut] [door]) 1)
           panel')
      = common.items (opcut_params (request [sheet 1; offcut] [door]) (sheet 1)).
Proof.
  destruct (retry_keeps_units (request [sheet 1; offcut] [door]) (sheet 1))
    as (panel' & Hfirst & Hitems & _); [reflexivity|].
  exists panel'. split; [exact Hfirst|exact Hitems].
Defined.

Lemma run_decomposition_witness :
  ∃ earlier last,
    last_three_attempts = earlier ++ [last]
    ∧ ∀ current, current ∈ earlier → _get_total_panel_quantity current < 50.
Proof.
  destruct (run_decomposition always_infeasible ticking_clock 3 common.GREEDY
              0%Q 0%nat (request [sheet 48] [door])
              (failure_response (unresolvable_message 50) (Some 2%Q))
              last_three_attempts ltac:(vm_compute; reflexivity))
    as (earlier & last & Hsplit & Hearlier & _).
  exists earlier, last. split; [exact Hsplit|].
  intros current Hin. exact (proj1 (Hearlier current Hin)).
Defined.
